(** * YourGPT service worker: cache gate

    A shallow embedding of the two service-worker scripts of the repository,
    [src/sw.js] (fixed cache name, cache-first) and [src/unnamed/part_000]
    (the variant with development-mode detection), and the properties of
    their install / fetch / activate / push handlers.

    The browser platform (Cache Storage, network, console, notifications) is
    an explicit world that every handler threads through a small state and
    exception monad. *)

From Stdlib Require Import String Ascii List Bool Arith NArith Lia.
From Stdlib Require Import DecimalString DecimalN.
Import ListNotations.
Local Open Scope string_scope.
Local Open Scope list_scope.

Set Implicit Arguments.

(* ================================================================== *)
(** ** JavaScript strings *)

Module JS.

(** [s.includes(sub)] *)
Fixpoint includes (s sub : string) : bool :=
  String.prefix sub s ||
  match s with
  | EmptyString => false
  | String _ s' => includes s' sub
  end.

(** Template-literal rendering of a non-negative integer. *)
Definition toString (n : N) : string :=
  NilEmpty.string_of_uint (N.to_uint n).

End JS.

(* ================================================================== *)
(** ** The platform *)

(** The parsed view [new URL(event.request.url)] of a request URL;
    [href] is the string [event.request.url] itself. *)
Record URL := mkURL {
  href : string;
  protocol : string;
  origin : string;
  hostname : string
}.

Record Request := mkRequest {
  method : string;
  url : URL;
  destination : string
}.

Record Response := mkResponse {
  status : nat;
  type : string;
  body : string
}.

(** [self.location] of the worker. *)
Record Location := mkLocation {
  loc_origin : string;
  loc_hostname : string;
  loc_port : string
}.

Inductive Error :=
| NetworkError (attempt : nat)   (* fetch() rejected *)
| StoreError (op : string)       (* a Cache Storage operation rejected *)
| TypeError (msg : string).

Inductive NetResult :=
| NetOk (r : Response)
| NetFail.

#[local] Unset Elimination Schemes.
(** A value that [JSON.parse] can produce.  A number is kept by the two
    things a script can observe of it here: whether it is zero, and how it
    prints. *)
Inductive Json :=
| JNull
| JBool (b : bool)
| JNumber (zero : bool) (text : string)
| JString (s : string)
| JArray (items : list Json)
| JObject (fields : list (string * Json)).
#[local] Set Elimination Schemes.

(** What [event.data.json()] does: it throws, or gives the parsed value. *)
Inductive PushJson :=
| JsonThrows
| JsonParsed (data : Json).

(** The value of an object's own property: of duplicate keys in the JSON
    text the last one counts. *)
Fixpoint last_field (fields : list (string * Json)) (key : string)
  : option Json :=
  match fields with
  | [] => None
  | (k, v) :: rest =>
      match last_field rest key with
      | Some v' => Some v'
      | None => if k =? key then Some v else None
      end
  end.

(** [data.key] for a parsed value other than null and a key that names no
    built-in property ([title], [body]); [None] is [undefined]. *)
Definition property (data : Json) (key : string) : option Json :=
  match data with
  | JObject fields => last_field fields key
  | _ => None
  end.

(** Whether a value counts as true in [value || other]. *)
Definition truthy (v : Json) : bool :=
  match v with
  | JNull => false
  | JBool b => b
  | JNumber zero _ => negb zero
  | JString s => negb (s =? "")
  | JArray _ => true
  | JObject _ => true
  end.

(** The conversion to a string that an API taking a DOMString applies:
    an array prints its elements joined by commas, null elements as
    nothing; an object prints as [[object Object]]. *)
Fixpoint toDOMString (v : Json) : string :=
  match v with
  | JNull => "null"
  | JBool true => "true"
  | JBool false => "false"
  | JNumber _ text => text
  | JString s => s
  | JArray items =>
      String.concat ","
        (map (fun e => match e with
                       | JNull => ""
                       | _ => toDOMString e
                       end) items)
  | JObject _ => "[object Object]"
  end.

Record Notification := mkNotification {
  n_title : string;
  n_body : option string;
  n_dateOfArrival : N
}.

(** One named cache: request URL to stored response, in insertion order. *)
Definition Cache := list (string * Response).
(** [caches]: cache name to cache, in creation order. *)
Definition CacheStorage := list (string * Cache).

(** Calls made on the Cache Storage API. *)
Inductive StoreOp :=
| OpMatch (key : string)
| OpOpen (name : string)
| OpPut (name key : string)
| OpKeys
| OpDelete (name : string).

(** Lines written with [console.log]. *)
Inductive LogEntry :=
| LogInstalling
| LogOpenedCache
| LogFailedToCache (u : string) (e : Error)
| LogCacheInstallation (successful failed : nat)
| LogCacheInstallationFailed (e : Error)
| LogDevFetched (u : string)
| LogDevNetworkFailed (u : string) (e : Error)
| LogCacheHit (u : string)
| LogCached (u : string)
| LogCachePutFailed (e : Error)
| LogCacheOpenFailed (e : Error)
| LogFetchFailed (e : Error)
| LogCacheMatchFailed (e : Error)
| LogActivating
| LogDeletingOldCache (name : string)
| LogCacheCleanup (successful failed : nat)
| LogCacheCleanupFailed (e : Error)
| LogNotificationFailed (e : Error)
| LogPushParsingFailed (e : Error).

(** What the worker cannot control: where it runs, the clock, what the
    network answers to the n-th fetch, and which store operations reject. *)
Record Env := mkEnv {
  location : Location;
  startup_now : N;                          (* Date.now() when the script is evaluated *)
  event_now : N;                            (* Date.now() inside a handler *)
  network : nat -> string -> NetResult;     (* n-th fetch() of a URL *)
  match_raises : string -> bool;
  open_raises : string -> bool;
  put_raises : string -> string -> bool;
  keys_raises : bool;
  delete_raises : string -> bool;
  notify_raises : bool
}.

Record World := mkWorld {
  storage : CacheStorage;
  fetched : list string;            (* URLs requested from the network *)
  storeops : list StoreOp;          (* Cache Storage calls, oldest first *)
  console : list LogEntry;
  notifications : list Notification;
  unhandled : list Error            (* rejections nobody awaited or caught *)
}.

Definition set_storage (s : CacheStorage) (w : World) : World :=
  mkWorld s (fetched w) (storeops w) (console w) (notifications w) (unhandled w).
Definition add_fetched (u : string) (w : World) : World :=
  mkWorld (storage w) (fetched w ++ [u]) (storeops w) (console w)
          (notifications w) (unhandled w).
Definition add_storeop (o : StoreOp) (w : World) : World :=
  mkWorld (storage w) (fetched w) (storeops w ++ [o]) (console w)
          (notifications w) (unhandled w).
Definition add_console (l : LogEntry) (w : World) : World :=
  mkWorld (storage w) (fetched w) (storeops w) (console w ++ [l])
          (notifications w) (unhandled w).
Definition add_notification (n : Notification) (w : World) : World :=
  mkWorld (storage w) (fetched w) (storeops w) (console w)
          (notifications w ++ [n]) (unhandled w).
Definition add_unhandled (e : Error) (w : World) : World :=
  mkWorld (storage w) (fetched w) (storeops w) (console w)
          (notifications w) (unhandled w ++ [e]).

(* ------------------------------------------------------------------ *)
(** *** Promises as a state-and-exception monad *)

Inductive Result (A : Type) :=
| Ok (a : A)
| Raise (e : Error).
Arguments Raise {A} e.

Definition M (A : Type) := World -> Result A * World.

Definition ret {A} (a : A) : M A := fun w => (Ok a, w).
Definition raise {A} (e : Error) : M A := fun w => (Raise e, w).
Definition bind {A B} (m : M A) (k : A -> M B) : M B :=
  fun w => match m w with
           | (Ok a, w') => k a w'
           | (Raise e, w') => (Raise e, w')
           end.
(** [try { m } catch (e) { h e }], also [m.catch(h)]. *)
Definition catch {A} (m : M A) (h : Error -> M A) : M A :=
  fun w => match m w with
           | (Ok a, w') => (Ok a, w')
           | (Raise e, w') => h e w'
           end.

Declare Scope promise_scope.
Delimit Scope promise_scope with promise.
Notation "x <- m ;; k" := (bind m (fun x => k))
  (at level 61, m at next level, right associativity) : promise_scope.
Notation "m ;;; k" := (bind m (fun _ => k))
  (at level 61, right associativity) : promise_scope.
Local Open Scope promise_scope.

Definition log (l : LogEntry) : M unit := fun w => (Ok tt, add_console l w).

(** A promise that is neither awaited nor returned: its rejection is an
    unhandled rejection and does not reach the enclosing task. *)
Definition detached (m : M unit) : M unit :=
  fun w => match m w with
           | (Ok _, w') => (Ok tt, w')
           | (Raise e, w') => (Ok tt, add_unhandled e w')
           end.

(** [Promise.allSettled]: every task runs, each outcome is recorded. *)
Inductive Settled (A : Type) :=
| Fulfilled (a : A)
| Rejected (e : Error).
Arguments Rejected {A} e.

Definition is_fulfilled {A} (r : Settled A) : bool :=
  match r with Fulfilled _ => true | Rejected _ => false end.
Definition is_rejected {A} (r : Settled A) : bool :=
  match r with Fulfilled _ => false | Rejected _ => true end.

Fixpoint allSettled {A} (ms : list (M A)) : M (list (Settled A)) :=
  match ms with
  | [] => ret []
  | m :: ms' =>
      fun w => match m w with
               | (Ok a, w') =>
                   (rs <- allSettled ms' ;; ret (Fulfilled a :: rs)) w'
               | (Raise e, w') =>
                   (rs <- allSettled ms' ;; ret (Rejected e :: rs)) w'
               end
  end.

(* ------------------------------------------------------------------ *)
(** *** Cache Storage, network and notification primitives *)

Fixpoint cache_lookup (c : Cache) (key : string) : option Response :=
  match c with
  | [] => None
  | (k, r) :: c' => if k =? key then Some r else cache_lookup c' key
  end.

(** [caches.match] looks through every cache, in creation order. *)
Fixpoint storage_lookup (s : CacheStorage) (key : string) : option Response :=
  match s with
  | [] => None
  | (_, c) :: s' =>
      match cache_lookup c key with
      | Some r => Some r
      | None => storage_lookup s' key
      end
  end.

(** [cache.put]: an entry with the same key is replaced, a new one appended. *)
Fixpoint cache_update (c : Cache) (key : string) (r : Response) : Cache :=
  match c with
  | [] => [(key, r)]
  | (k, r0) :: c' =>
      if k =? key then (k, r) :: c' else (k, r0) :: cache_update c' key r
  end.

Definition has_cache (s : CacheStorage) (name : string) : bool :=
  existsb (fun nc => fst nc =? name) s.

Definition storage_put (s : CacheStorage) (name key : string) (r : Response)
  : CacheStorage :=
  map (fun nc => if fst nc =? name
                 then (fst nc, cache_update (snd nc) key r) else nc) s.

Definition storage_delete (s : CacheStorage) (name : string) : CacheStorage :=
  filter (fun nc => negb (fst nc =? name)) s.

(** The argument of [caches.match]: a request object or a URL string. *)
Inductive RequestInfo :=
| OfRequest (request : Request)
| OfString (u : string).

Section Primitives.

Variable env : Env.

(** Resolution of a request key against the worker's origin, for the two
    shapes the scripts use: an absolute path and an absolute URL. *)
Definition resolve (u : string) : string :=
  if String.prefix "/" u then loc_origin (location env) ++ u else u.

Definition fetch (u : string) : M Response :=
  fun w =>
    let n := length (fetched w) in
    let w1 := add_fetched u w in
    match network env n u with
    | NetOk r => (Ok r, w1)
    | NetFail => (Raise (NetworkError n), w1)
    end.

Definition key_of (info : RequestInfo) : string :=
  match info with
  | OfRequest request => href (url request)
  | OfString u => resolve u
  end.

Definition caches_match (info : RequestInfo) : M (option Response) :=
  fun w =>
    let key := key_of info in
    let w1 := add_storeop (OpMatch key) w in
    if match_raises env key then (Raise (StoreError "match"), w1)
    else (Ok (storage_lookup (storage w1) key), w1).

(** [caches.open(name)] creates the cache when it is absent; the handle it
    resolves to is the cache's name. *)
Definition caches_open (name : string) : M string :=
  fun w =>
    let w1 := add_storeop (OpOpen name) w in
    if open_raises env name then (Raise (StoreError "open"), w1)
    else if has_cache (storage w1) name then (Ok name, w1)
    else (Ok name, set_storage (storage w1 ++ [(name, [])]) w1).

Definition cache_put (cache key : string) (r : Response) : M unit :=
  fun w =>
    let w1 := add_storeop (OpPut cache key) w in
    if put_raises env cache key then (Raise (StoreError "put"), w1)
    else (Ok tt, set_storage (storage_put (storage w1) cache key r) w1).

(** [response.ok] *)
Definition ok (r : Response) : bool :=
  (200 <=? status r)%nat && (status r <=? 299)%nat.

(** [cache.add(url)]: fetch, reject unless the response is ok, then put. *)
Definition cache_add (cache u : string) : M unit :=
  r <- fetch (resolve u) ;;
  if ok r then cache_put cache (resolve u) r
  else raise (TypeError "bad response status").

Definition caches_keys : M (list string) :=
  fun w =>
    let w1 := add_storeop OpKeys w in
    if keys_raises env then (Raise (StoreError "keys"), w1)
    else (Ok (map fst (storage w1)), w1).

(** [caches.delete(name)] resolves to whether a cache was removed. *)
Definition caches_delete (name : string) : M bool :=
  fun w =>
    let w1 := add_storeop (OpDelete name) w in
    if delete_raises env name then (Raise (StoreError "delete"), w1)
    else (Ok (has_cache (storage w1) name),
          set_storage (storage_delete (storage w1) name) w1).

Definition showNotification (title : string) (body : option string) : M unit :=
  fun w =>
    if notify_raises env then (Raise (TypeError "no notification permission"), w)
    else (Ok tt, add_notification (mkNotification title body (event_now env)) w).

End Primitives.

(* ================================================================== *)
(** ** The handlers both scripts share *)

Definition urlsToCache : list string :=
  [ "/";
    "/index.html";
    "/manifest.json";
    "https://cdn.jsdelivr.net/npm/marked/marked.min.js";
    "https://fonts.googleapis.com/css2?family=Inter:wght@400;500;600;700&display=swap" ].

(** What a seed task settles with: [cache.add]'s [undefined], or the [null]
    its own catch handler returns. *)
Inductive Seeded := SeedAdded | SeedNull.

(** What [event.respondWith] is given, when the handler calls it at all.
    [Ok None] is a promise resolved with [undefined]. *)
Inductive Handled :=
| NotIntercepted
| RespondWith (r : Result (option Response)).

(** What the page that issued the request sees of an intercepted fetch:
    a promise that rejects, or resolves with something that is not a
    Response, is a network error ([None]). *)
Definition page_receives (r : Result (option Response)) : option Response :=
  match r with
  | Ok (Some resp) => Some resp
  | Ok None => None
  | Raise _ => None
  end.

Section Handlers.

Variable env : Env.
Variable CACHE_NAME : string.

(** The callback mapped over [urlsToCache]: one seed's fetch-and-store,
    with its own catch handler. *)
Definition add_seed (cache u : string) : M Seeded :=
  catch (cache_add env cache u ;;; ret SeedAdded)
        (fun error => log (LogFailedToCache u error) ;;; ret SeedNull).

(** The install listener: the promise given to [event.waitUntil]. *)
Definition on_install : M unit :=
  log LogInstalling ;;;
  catch
    (cache <- caches_open env CACHE_NAME ;;
     log LogOpenedCache ;;;
     results <- allSettled (map (add_seed cache) urlsToCache) ;;
     let successful := length (filter (@is_fulfilled _) results) in
     let failed := length (filter (@is_rejected _) results) in
     log (LogCacheInstallation successful failed))
    (fun error => log (LogCacheInstallationFailed error)).

(** The three early returns at the head of the fetch listener. *)
Definition skips (request : Request) : bool :=
  if negb (method request =? "GET") then true
  else
    let url := url request in
    if (protocol url =? "chrome-extension:") ||
       (protocol url =? "chrome:") ||
       (protocol url =? "moz-extension:") ||
       (protocol url =? "ms-browser-extension:") then true
    else if negb (origin url =? loc_origin (location env)) &&
            negb (JS.includes (hostname url) "cdn.tailwindcss.com") &&
            negb (JS.includes (hostname url) "cdn.jsdelivr.net") &&
            negb (JS.includes (hostname url) "fonts.googleapis.com") &&
            negb (JS.includes (hostname url) "supabase.co") then true
    else false.

(** The fetch listener around the task it hands to [event.respondWith]. *)
Definition fetch_listener (task : Request -> M (option Response))
           (request : Request) : World -> Handled * World :=
  fun w =>
    if skips request then (NotIntercepted, w)
    else let (r, w') := task request w in (RespondWith r, w').

(** The callback mapped over the cache names: [Some b] is what
    [caches.delete] resolved to, [None] the [Promise.resolve()] of the
    current cache. *)
Definition delete_if_old (cacheName : string) : M (option bool) :=
  if negb (cacheName =? CACHE_NAME)
  then log (LogDeletingOldCache cacheName) ;;;
       b <- caches_delete env cacheName ;; ret (Some b)
  else ret None.

(** The activate listener: the promise given to [event.waitUntil]. *)
Definition on_activate : M unit :=
  log LogActivating ;;;
  catch
    (cacheNames <- caches_keys env ;;
     results <- allSettled (map delete_if_old cacheNames) ;;
     let successful := length (filter (@is_fulfilled _) results) in
     let failed := length (filter (@is_rejected _) results) in
     log (LogCacheCleanup successful failed))
    (fun error => log (LogCacheCleanupFailed error)).

(** The push listener; [data] is [event.data], absent or a payload.  The
    options read [data.body] before the title is chosen, so a payload that
    parses to null fails there; the title is [data.title || 'YourGPT'],
    converted to a string by [showNotification]. *)
Definition on_push (data : option PushJson) : M unit :=
  match data with
  | None => ret tt
  | Some d =>
      catch
        (match d with
         | JsonThrows => raise (TypeError "invalid JSON")
         | JsonParsed JNull =>
             raise (TypeError "cannot read properties of null")
         | JsonParsed data =>
             let body := property data "body" in
             let title :=
               match property data "title" with
               | Some t => if truthy t then toDOMString t else "YourGPT"
               | None => "YourGPT"
               end in
             catch (showNotification env title (option_map toDOMString body))
                   (fun error => log (LogNotificationFailed error))
         end)
        (fun error => log (LogPushParsingFailed error))
  end.

End Handlers.

(* ================================================================== *)
(** ** src/sw.js *)

Module Sw.

Definition CACHE_NAME : string := "yourgpt-v1.0.0".

Section Respond.
Variable env : Env.

(** The promise chain given to [event.respondWith].  The promise of
    [cache.put] is dropped inside a synchronous try block, so a rejection of
    it reaches no handler; the [caches.open] chain it sits in is not awaited
    either, but ends in its own catch. *)
Definition respond (request : Request) : M (option Response) :=
  catch
    (response <- caches_match env (OfRequest request) ;;
     match response with
     | Some r => ret (Some r)
     | None =>
         catch
           (response <- fetch env (href (url request)) ;;
            if negb (status response =? 200)%nat ||
               negb (type response =? "basic")
            then ret (Some response)
            else
              catch (cache <- caches_open env CACHE_NAME ;;
                     detached (cache_put env cache (href (url request)) response))
                    (fun error => log (LogCacheOpenFailed error)) ;;;
              ret (Some response))
           (fun error =>
              log (LogFetchFailed error) ;;;
              if destination request =? "document"
              then caches_match env (OfString "/index.html")
              else ret None)
     end)
    (fun error =>
       log (LogCacheMatchFailed error) ;;;
       r <- fetch env (href (url request)) ;; ret (Some r)).

Definition on_fetch := fetch_listener env respond.

End Respond.
End Sw.

(* ================================================================== *)
(** ** src/unnamed/part_000: the script with development mode *)

Module Part000.

Section Script.
Variable env : Env.

Definition isDevelopment : bool :=
  (loc_hostname (location env) =? "localhost") ||
  (loc_hostname (location env) =? "127.0.0.1") ||
  JS.includes (loc_hostname (location env)) "local" ||
  (loc_port (location env) =? "3000") ||
  (loc_port (location env) =? "8080") ||
  (loc_port (location env) =? "5000").

Definition CACHE_NAME : string :=
  if isDevelopment
  then "yourgpt-dev-" ++ JS.toString (startup_now env)
  else "yourgpt-v1.0.0".

(** The first block of the async function: in development the network is
    tried first; [Some r] is the early [return networkResponse]. *)
Definition dev_network_first (request : Request) : M (option Response) :=
  if isDevelopment then
    catch
      (networkResponse <- fetch env (href (url request)) ;;
       if (status networkResponse =? 200)%nat
       then log (LogDevFetched (href (url request))) ;;;
            ret (Some networkResponse)
       else ret None)
      (fun error =>
         log (LogDevNetworkFailed (href (url request)) error) ;;;
         ret None)
  else ret None.

(** The [try { fetch ... } catch (error) { ... }] block that ends the
    async function. *)
Definition fetch_and_cache (request : Request) : M (option Response) :=
  catch
    (networkResponse <- fetch env (href (url request)) ;;
     if negb (status networkResponse =? 200)%nat ||
        negb (type networkResponse =? "basic")
     then ret (Some networkResponse)
     else
       (if negb isDevelopment ||
           negb (JS.includes (href (url request)) "index.html")
        then
          catch (cache <- caches_open env CACHE_NAME ;;
                 cache_put env cache (href (url request)) networkResponse ;;;
                 log (LogCached (href (url request))))
                (fun error => log (LogCachePutFailed error))
        else ret tt) ;;;
       ret (Some networkResponse))
    (fun error =>
       log (LogFetchFailed error) ;;;
       (if destination request =? "document"
        then offlineResponse <- caches_match env (OfString "/index.html") ;;
             match offlineResponse with
             | Some o => ret (Some o)
             | None => raise error
             end
        else raise error)).

(** The async function given to [event.respondWith]. *)
Definition respond (request : Request) : M (option Response) :=
  early <- dev_network_first request ;;
  match early with
  | Some networkResponse => ret (Some networkResponse)
  | None =>
      cachedResponse <- caches_match env (OfRequest request) ;;
      match cachedResponse with
      | Some c =>
          if negb isDevelopment
          then log (LogCacheHit (href (url request))) ;;; ret (Some c)
          else fetch_and_cache request
      | None => fetch_and_cache request
      end
  end.

Definition on_fetch := fetch_listener env respond.

End Script.
End Part000.

(* ================================================================== *)
(** ** Concrete platforms used to run the handlers *)

Module Fixture.

Definition site : string := "https://yourgpt.app".

Definition prod_location : Location := mkLocation site "yourgpt.app" "".
Definition dev_location : Location :=
  mkLocation "http://localhost:3000" "localhost" "3000".

(** A same-origin URL of the worker's site, and a GET request for it. *)
Definition url_at (loc : Location) (path : string) : URL :=
  mkURL (loc_origin loc ++ path)
        (if String.prefix "https:" (loc_origin loc) then "https:" else "http:")
        (loc_origin loc) (loc_hostname loc).

Definition get (loc : Location) (path dest : string) : Request :=
  mkRequest "GET" (url_at loc path) dest.

Definition page (b : string) : Response := mkResponse 200 "basic" b.

Definition offline : nat -> string -> NetResult := fun _ _ => NetFail.
Definition serving (r : Response) : nat -> string -> NetResult :=
  fun _ _ => NetOk r.
(** A server that answers every URL with a page of its own. *)
Definition online : nat -> string -> NetResult := fun _ u => NetOk (page u).
(** A server that goes down after [k] requests. *)
Definition up_until (k : nat) : nat -> string -> NetResult :=
  fun n u => if (n <? k)%nat then NetOk (page u) else NetFail.

Definition no (_ : string) : bool := false.
Definition no2 (_ _ : string) : bool := false.

(** A platform whose store never rejects. *)
Definition healthy (loc : Location) (t : N) (net : nat -> string -> NetResult)
  : Env :=
  mkEnv loc t t net no no no2 false no false.

Definition empty_world : World := mkWorld [] [] [] [] [] [].
Definition world_with (s : CacheStorage) : World := mkWorld s [] [] [] [] [].

End Fixture.

(* ================================================================== *)
(** ** Vocabulary of the properties *)

Section CleanupOutcome.

Variable env : Env.
Variable current : string.

(** A name whose deletion is requested and goes through. *)
Definition deleted (n : string) : bool :=
  negb (n =? current) && negb (delete_raises env n).

(** The caches a run of the cleanup tasks over [ns] leaves in place. *)
Definition kept (ns : list string) (nc : string * Cache) : bool :=
  negb (existsb (fun n => deleted n && (fst nc =? n)) ns).

Definition after_cleanup (ns : list string) (w : World) : World :=
  mkWorld (filter (kept ns) (storage w))
          (fetched w)
          (storeops w ++ map OpDelete (filter (fun n => negb (n =? current)) ns))
          (console w ++
             map LogDeletingOldCache (filter (fun n => negb (n =? current)) ns))
          (notifications w)
          (unhandled w).

End CleanupOutcome.

(** The sentence of C2, for one fetch listener at one input: a request that
    passes the gate, that the store lookup does not find and to which the
    network answers [resp], is answered with [resp] after a network fetch,
    and afterwards the store holds [resp] under the request's key exactly
    when [resp] has status 200 and type basic. *)
Definition cache_miss_claim
    (on_fetch : Env -> Request -> World -> Handled * World)
    (env : Env) (request : Request) (w : World) : Prop :=
  forall resp : Response,
    skips env request = false ->
    match_raises env (href (url request)) = false ->
    storage_lookup (storage w) (href (url request)) = None ->
    network env (length (fetched w)) (href (url request)) = NetOk resp ->
    fst (on_fetch env request w) = RespondWith (Ok (Some resp)) /\
    fetched (snd (on_fetch env request w)) = fetched w ++ [href (url request)] /\
    (storage_lookup (storage (snd (on_fetch env request w)))
                    (href (url request)) = Some resp
     <-> status resp = 200 /\ type resp = "basic").

(** The answer [r] to [request] is an entry of a cache that is not the
    current generation's, and not anything the network says. *)
Definition stale_answer (env : Env) (request : Request) (w : World)
           (r : Response) : Prop :=
  fst (Part000.on_fetch env request w) = RespondWith (Ok (Some r)) /\
  (forall n, network env n (href (url request)) <> NetOk r) /\
  exists name c,
    In (name, c) (storage w) /\
    name <> Part000.CACHE_NAME env /\
    cache_lookup c (href (url request)) = Some r.

(** The sentence of C6: development startups get different generation
    identifiers, and a request for '/index.html' is never answered from a
    store of another generation. *)
Definition fresh_generation_claim : Prop :=
  (forall env env',
     Part000.isDevelopment env = true ->
     Part000.isDevelopment env' = true ->
     startup_now env' <> startup_now env ->
     Part000.CACHE_NAME env' <> Part000.CACHE_NAME env) /\
  (forall env request w r,
     Part000.isDevelopment env = true ->
     skips env request = false ->
     href (url request) = resolve env "/index.html" ->
     ~ stale_answer env request w r).

(** The entry the cache called [name] holds for [key]: what
    [caches.open(name)] followed by [cache.match(key)] resolves to. *)
Fixpoint lookup_in (s : CacheStorage) (name key : string) : option Response :=
  match s with
  | [] => None
  | (n, c) :: s' =>
      if n =? name then cache_lookup c key else lookup_in s' name key
  end.

(** The last character of a string. *)
Fixpoint last_char (s : string) : option ascii :=
  match s with
  | EmptyString => None
  | String a s' =>
      match last_char s' with
      | Some b => Some b
      | None => Some a
      end
  end.

(** [n] copies of one URL. *)
Definition times (n : nat) (u : string) : list string := repeat u n.

(** What the seed task for [u] stores when its fetch is the [n]-th of the
    worker: the response, if the network gives one that is ok and the put is
    not rejected. *)
Definition seed_response (env : Env) (cache u : string) (n : nat)
  : option Response :=
  match network env n (resolve env u) with
  | NetOk r =>
      if ok r && negb (put_raises env cache (resolve env u))
      then Some r else None
  | NetFail => None
  end.

(** The store after [caches.open(name)]: the cache is created when absent. *)
Definition opened_storage (s : CacheStorage) (name : string) : CacheStorage :=
  if has_cache s name then s else s ++ [(name, [])].

(** The store after a production-mode miss that the network answered with
    [resp]: untouched unless [resp] has status 200 and type basic; then the
    cache [name] is opened, unless the open is rejected, and [resp] is put
    under [key], unless the put is rejected. *)
Definition store_after_miss (env : Env) (name key : string) (resp : Response)
           (s : CacheStorage) : CacheStorage :=
  if negb (status resp =? 200)%nat || negb (type resp =? "basic") then s
  else if open_raises env name then s
  else if put_raises env name key then opened_storage s name
  else storage_put (opened_storage s name) name key resp.

(** What one handling of a fetch event can do to the store: nothing, open
    the cache [name], or open it and put one response under [key]. *)
Inductive fetch_store_change (name key : string) (s : CacheStorage)
  : CacheStorage -> Prop :=
| NoChange : fetch_store_change name key s s
| Opened : fetch_store_change name key s (opened_storage s name)
| Stored (r : Response) :
    fetch_store_change name key s
      (storage_put (opened_storage s name) name key r).

(** What the page sees of a fetch event: nothing of the worker when the
    event is not intercepted, else the response or the failure. *)
Definition page_sees (h : Handled) : option (option Response) :=
  match h with
  | NotIntercepted => None
  | RespondWith r => Some (page_receives r)
  end.

(* ================================================================== *)
(** ** Properties *)

Import Fixture.

Ltac unfold_promise :=
  unfold bind, catch, ret, raise, log, detached.
Ltac unfold_platform :=
  unfold fetch, caches_match, caches_open, cache_put, caches_keys,
    caches_delete, showNotification, key_of.

(** *** Request classification *)

Lemma skips_spec (env : Env) (request : Request) :
  skips env request = true <->
  (method request <> "GET" \/
   (protocol (url request) = "chrome-extension:" \/
    protocol (url request) = "chrome:" \/
    protocol (url request) = "moz-extension:" \/
    protocol (url request) = "ms-browser-extension:") \/
   (origin (url request) <> loc_origin (location env) /\
    JS.includes (hostname (url request)) "cdn.tailwindcss.com" = false /\
    JS.includes (hostname (url request)) "cdn.jsdelivr.net" = false /\
    JS.includes (hostname (url request)) "fonts.googleapis.com" = false /\
    JS.includes (hostname (url request)) "supabase.co" = false)).
Proof.
  unfold skips.
  destruct (String.eqb_spec (method request) "GET") as [Hm | Hm]; simpl.
  2: { split; [ intros _; tauto | reflexivity ]. }
  destruct (String.eqb_spec (protocol (url request)) "chrome-extension:");
    simpl; [ split; [ intros _; tauto | reflexivity ] | ].
  destruct (String.eqb_spec (protocol (url request)) "chrome:");
    simpl; [ split; [ intros _; tauto | reflexivity ] | ].
  destruct (String.eqb_spec (protocol (url request)) "moz-extension:");
    simpl; [ split; [ intros _; tauto | reflexivity ] | ].
  destruct (String.eqb_spec (protocol (url request)) "ms-browser-extension:");
    simpl; [ split; [ intros _; tauto | reflexivity ] | ].
  destruct (String.eqb_spec (origin (url request)) (loc_origin (location env)));
    simpl; [ split; [ discriminate | tauto ] | ].
  destruct (JS.includes (hostname (url request)) "cdn.tailwindcss.com"),
           (JS.includes (hostname (url request)) "cdn.jsdelivr.net"),
           (JS.includes (hostname (url request)) "fonts.googleapis.com"),
           (JS.includes (hostname (url request)) "supabase.co"); simpl;
    (split;
     [ first [ discriminate | intros _; tauto ]
     | first [ reflexivity
             | intros [H | [H | H]];
               [ tauto | tauto
               | destruct H as (_ & ? & ? & ? & ?); discriminate ] ] ]).
Qed.

Lemma fetch_listener_skip env task request w :
  skips env request = true ->
  fetch_listener env task request w = (NotIntercepted, w).
Proof. unfold fetch_listener. intros ->. reflexivity. Qed.

Lemma fetch_listener_respond env task request w :
  skips env request = false ->
  fetch_listener env task request w =
  (RespondWith (fst (task request w)), snd (task request w)).
Proof.
  unfold fetch_listener. intros ->. destruct (task request w); reflexivity.
Qed.

(** C4. A request that is not a GET, or whose scheme is chrome,
    chrome-extension, moz-extension or ms-browser-extension, or that is
    cross-origin with a hostname containing none of the four allow-listed
    substrings, is not intercepted by either script: [respondWith] is not
    called and the world (store contents, store calls, network calls) is
    exactly what it was. *)
Theorem C4_pass_through_untouched (env : Env) (request : Request) (w : World) :
  (method request <> "GET" \/
   (protocol (url request) = "chrome-extension:" \/
    protocol (url request) = "chrome:" \/
    protocol (url request) = "moz-extension:" \/
    protocol (url request) = "ms-browser-extension:") \/
   (origin (url request) <> loc_origin (location env) /\
    JS.includes (hostname (url request)) "cdn.tailwindcss.com" = false /\
    JS.includes (hostname (url request)) "cdn.jsdelivr.net" = false /\
    JS.includes (hostname (url request)) "fonts.googleapis.com" = false /\
    JS.includes (hostname (url request)) "supabase.co" = false)) ->
  Sw.on_fetch env request w = (NotIntercepted, w) /\
  Part000.on_fetch env request w = (NotIntercepted, w).
Proof.
  intros H. apply skips_spec in H.
  split; apply fetch_listener_skip; exact H.
Qed.

(** A POST to the worker's own origin is passed through. *)
Lemma C4_pass_through_witness :
  let env := healthy prod_location 0 offline in
  let request := mkRequest "POST" (url_at prod_location "/api/chat") "" in
  Sw.on_fetch env request empty_world = (NotIntercepted, empty_world) /\
  Part000.on_fetch env request empty_world = (NotIntercepted, empty_world).
Proof.
  apply C4_pass_through_untouched. left. simpl. discriminate.
Defined.

(** Every other request is intercepted. *)
Lemma cacheable_is_intercepted env task request w :
  skips env request = false ->
  exists r, fst (fetch_listener env task request w) = RespondWith r.
Proof.
  intros H. rewrite fetch_listener_respond by exact H. simpl. eauto.
Qed.

(** *** Cache hit *)

(** C1. In production mode, a request that passes the gate and whose key the
    store lookup finds is answered with the stored response; the network is
    not called and the store is not changed.  [src/sw.js] has no development
    mode; for [part_000] production mode is [isDevelopment = false]. *)
Theorem C1_cache_hit_no_network
  (env : Env) (request : Request) (w : World) (stored : Response) :
  skips env request = false ->
  match_raises env (href (url request)) = false ->
  storage_lookup (storage w) (href (url request)) = Some stored ->
  (fst (Sw.on_fetch env request w) = RespondWith (Ok (Some stored)) /\
   fetched (snd (Sw.on_fetch env request w)) = fetched w /\
   storage (snd (Sw.on_fetch env request w)) = storage w) /\
  (Part000.isDevelopment env = false ->
   fst (Part000.on_fetch env request w) = RespondWith (Ok (Some stored)) /\
   fetched (snd (Part000.on_fetch env request w)) = fetched w /\
   storage (snd (Part000.on_fetch env request w)) = storage w).
Proof.
  intros Hgate Hmatch Hhit. split.
  - unfold Sw.on_fetch. rewrite fetch_listener_respond by exact Hgate.
    unfold Sw.respond. unfold_promise. unfold_platform. simpl.
    rewrite Hmatch, Hhit. simpl. auto.
  - intros Hprod.
    unfold Part000.on_fetch. rewrite fetch_listener_respond by exact Hgate.
    unfold Part000.respond, Part000.dev_network_first. rewrite Hprod.
    unfold_promise. unfold_platform. simpl.
    rewrite Hmatch, Hhit. simpl. auto.
Qed.

Lemma C1_cache_hit_witness :
  let env := healthy prod_location 0 offline in
  let request := get prod_location "/app.js" "script" in
  let w := world_with [(Sw.CACHE_NAME, [((site ++ "/app.js")%string, page "app")])] in
  fst (Sw.on_fetch env request w) = RespondWith (Ok (Some (page "app"))) /\
  fst (Part000.on_fetch env request w) = RespondWith (Ok (Some (page "app"))) /\
  fetched (snd (Part000.on_fetch env request w)) = [].
Proof.
  intros env request w.
  destruct (@C1_cache_hit_no_network env request w (page "app"))
    as [[Hsw _] Hdev]; try reflexivity.
  destruct (Hdev eq_refl) as [Hp [Hf _]].
  split; [ exact Hsw | split; [ exact Hp | exact Hf ] ].
Defined.

(** *** Push *)

(** C10. A push event without payload data does nothing: the handler's task
    completes without an error and the world, including the notifications
    shown and the store, is unchanged. *)
Theorem C10_push_without_data (env : Env) (w : World) :
  on_push env None w = (Ok tt, w) /\
  notifications (snd (on_push env None w)) = notifications w /\
  storage (snd (on_push env None w)) = storage w /\
  storeops (snd (on_push env None w)) = storeops w.
Proof. repeat split. Qed.

(** With a payload the handler does act: the notification is requested. *)
Lemma push_with_data_notifies (env : Env) (w : World) (text : string) :
  notify_raises env = false ->
  on_push env (Some (JsonParsed (JObject [("body", JString text)]))) w =
  (Ok tt,
   add_notification (mkNotification "YourGPT" (Some text) (event_now env)) w).
Proof.
  intros H. unfold on_push, showNotification, catch. simpl. rewrite H.
  reflexivity.
Qed.

(** X7. The push handler's task never fails, whatever the payload: a
    payload that does not parse and a notification that is refused are both
    caught. *)
Lemma push_never_raises (env : Env) (data : option PushJson) (w : World) :
  fst (on_push env data w) = Ok tt.
Proof.
  destruct data as [[| data] |]; try reflexivity.
  destruct data; try reflexivity;
    unfold on_push, showNotification, catch, log;
    destruct (notify_raises env); reflexivity.
Qed.

(** *** Store lemmas *)

Lemma cache_lookup_update (c : Cache) (key : string) (r : Response) :
  cache_lookup (cache_update c key r) key = Some r.
Proof.
  induction c as [| [k r0] c IH]; simpl.
  - rewrite String.eqb_refl. reflexivity.
  - destruct (String.eqb_spec k key) as [-> | Hk]; simpl.
    + rewrite String.eqb_refl. reflexivity.
    + apply String.eqb_neq in Hk. rewrite Hk. exact IH.
Qed.

Lemma storage_lookup_put (s : CacheStorage) (name key : string) (r : Response) :
  storage_lookup s key = None ->
  has_cache s name = true ->
  storage_lookup (storage_put s name key r) key = Some r.
Proof.
  induction s as [| [n c] s IH]; simpl; [ discriminate | ].
  intros Hmiss Hhas.
  destruct (cache_lookup c key) eqn:Hc; [ discriminate | ].
  destruct (String.eqb_spec n name) as [-> | Hn]; simpl.
  - rewrite cache_lookup_update. reflexivity.
  - rewrite Hc. apply IH; assumption.
Qed.

Lemma storage_lookup_new_cache (s : CacheStorage) (name key : string) :
  storage_lookup (s ++ [(name, [])]) key = storage_lookup s key.
Proof.
  induction s as [| [n c] s IH]; simpl; [ reflexivity | ].
  destruct (cache_lookup c key); [ reflexivity | exact IH ].
Qed.

Lemma has_cache_new_cache (s : CacheStorage) (name : string) (c : Cache) :
  has_cache (s ++ [(name, c)]) name = true.
Proof.
  unfold has_cache. rewrite existsb_app. simpl.
  rewrite String.eqb_refl. apply orb_true_iff. right. reflexivity.
Qed.

(** Opening a cache (creating it when absent) and putting an entry makes a
    key that no cache held resolve to that entry. *)
Lemma storage_lookup_open_put (s : CacheStorage) (name key : string) (r : Response) :
  storage_lookup s key = None ->
  storage_lookup
    (storage_put (if has_cache s name then s else s ++ [(name, [])])
                 name key r) key = Some r.
Proof.
  intros Hmiss. destruct (has_cache s name) eqn:Hhas.
  - apply storage_lookup_put; assumption.
  - apply storage_lookup_put.
    + rewrite storage_lookup_new_cache. exact Hmiss.
    + apply has_cache_new_cache.
Qed.

(** *** Cache miss *)

Lemma valid_response_test (resp : Response) :
  negb (status resp =? 200)%nat || negb (type resp =? "basic") = false
  <-> status resp = 200 /\ type resp = "basic".
Proof.
  destruct (Nat.eqb_spec (status resp) 200),
           (String.eqb_spec (type resp) "basic"); simpl;
    split; try discriminate; try tauto; auto.
Qed.

Lemma sw_cache_miss (env : Env) (request : Request) (w : World) :
  open_raises env Sw.CACHE_NAME = false ->
  put_raises env Sw.CACHE_NAME (href (url request)) = false ->
  cache_miss_claim Sw.on_fetch env request w.
Proof.
  intros Hopen Hput resp Hgate Hmatch Hmiss Hnet.
  unfold Sw.on_fetch. rewrite fetch_listener_respond by exact Hgate.
  unfold Sw.respond. unfold_promise. unfold_platform. simpl.
  rewrite Hmatch. simpl. rewrite Hmiss. simpl. rewrite Hnet. simpl.
  destruct (negb (status resp =? 200)%nat || negb (type resp =? "basic"))
    eqn:Hvalid; simpl.
  - repeat split; try congruence.
    intros Hv. apply valid_response_test in Hv. congruence.
  - rewrite Hopen.
    destruct (has_cache (storage w) Sw.CACHE_NAME) eqn:Hhas; simpl;
      rewrite Hput; simpl; (split; [ reflexivity | split; [ reflexivity | ] ]);
      (split; [ intros _; apply valid_response_test; exact Hvalid | intros _ ]).
    + apply storage_lookup_put; assumption.
    + apply storage_lookup_put;
        [ rewrite storage_lookup_new_cache; exact Hmiss
        | apply has_cache_new_cache ].
Qed.

Lemma part000_production_cache_name (env : Env) :
  Part000.isDevelopment env = false -> Part000.CACHE_NAME env = Sw.CACHE_NAME.
Proof. unfold Part000.CACHE_NAME. intros ->. reflexivity. Qed.

Lemma part000_cache_miss_production (env : Env) (request : Request) (w : World) :
  Part000.isDevelopment env = false ->
  open_raises env Sw.CACHE_NAME = false ->
  put_raises env Sw.CACHE_NAME (href (url request)) = false ->
  cache_miss_claim Part000.on_fetch env request w.
Proof.
  intros Hprod Hopen Hput resp Hgate Hmatch Hmiss Hnet.
  unfold Part000.on_fetch. rewrite fetch_listener_respond by exact Hgate.
  unfold Part000.respond, Part000.dev_network_first, Part000.fetch_and_cache.
  rewrite (part000_production_cache_name _ Hprod), Hprod.
  unfold_promise. unfold_platform. simpl.
  rewrite Hmatch. simpl. rewrite Hmiss. simpl. rewrite Hnet. simpl.
  destruct (negb (status resp =? 200)%nat || negb (type resp =? "basic"))
    eqn:Hvalid; simpl.
  - repeat split; try congruence.
    intros Hv. apply valid_response_test in Hv. congruence.
  - rewrite Hopen.
    destruct (has_cache (storage w) Sw.CACHE_NAME) eqn:Hhas; simpl;
      rewrite Hput; simpl; (split; [ reflexivity | split; [ reflexivity | ] ]);
      (split; [ intros _; apply valid_response_test; exact Hvalid | intros _ ]).
    + apply storage_lookup_put; assumption.
    + apply storage_lookup_put;
        [ rewrite storage_lookup_new_cache; exact Hmiss
        | apply has_cache_new_cache ].
Qed.

Lemma sw_miss_run (env : Env) (request : Request) (w : World) (resp : Response) :
  skips env request = false ->
  match_raises env (href (url request)) = false ->
  storage_lookup (storage w) (href (url request)) = None ->
  network env (length (fetched w)) (href (url request)) = NetOk resp ->
  fst (Sw.on_fetch env request w) = RespondWith (Ok (Some resp)) /\
  fetched (snd (Sw.on_fetch env request w))
    = fetched w ++ [href (url request)] /\
  storage (snd (Sw.on_fetch env request w))
    = store_after_miss env Sw.CACHE_NAME (href (url request)) resp (storage w).
Proof.
  intros Hgate Hmatch Hmiss Hnet.
  unfold Sw.on_fetch. rewrite fetch_listener_respond by exact Hgate.
  unfold Sw.respond, store_after_miss, opened_storage.
  unfold_promise. unfold_platform. simpl.
  rewrite Hmatch. simpl. rewrite Hmiss. simpl. rewrite Hnet. simpl.
  destruct (negb (status resp =? 200)%nat || negb (type resp =? "basic"));
    simpl; [ auto | ].
  destruct (open_raises env Sw.CACHE_NAME); simpl; [ auto | ].
  destruct (has_cache (storage w) Sw.CACHE_NAME); simpl;
    destruct (put_raises env Sw.CACHE_NAME (href (url request))); simpl; auto.
Qed.

Lemma part000_miss_run (env : Env) (request : Request) (w : World)
      (resp : Response) :
  Part000.isDevelopment env = false ->
  skips env request = false ->
  match_raises env (href (url request)) = false ->
  storage_lookup (storage w) (href (url request)) = None ->
  network env (length (fetched w)) (href (url request)) = NetOk resp ->
  fst (Part000.on_fetch env request w) = RespondWith (Ok (Some resp)) /\
  fetched (snd (Part000.on_fetch env request w))
    = fetched w ++ [href (url request)] /\
  storage (snd (Part000.on_fetch env request w))
    = store_after_miss env Sw.CACHE_NAME (href (url request)) resp (storage w).
Proof.
  intros Hprod Hgate Hmatch Hmiss Hnet.
  unfold Part000.on_fetch. rewrite fetch_listener_respond by exact Hgate.
  unfold Part000.respond, Part000.dev_network_first, Part000.fetch_and_cache.
  rewrite (part000_production_cache_name _ Hprod), Hprod.
  unfold store_after_miss, opened_storage.
  unfold_promise. unfold_platform. simpl.
  rewrite Hmatch. simpl. rewrite Hmiss. simpl. rewrite Hnet. simpl.
  destruct (negb (status resp =? 200)%nat || negb (type resp =? "basic"));
    simpl; [ auto | ].
  destruct (open_raises env Sw.CACHE_NAME); simpl; [ auto | ].
  destruct (has_cache (storage w) Sw.CACHE_NAME); simpl;
    destruct (put_raises env Sw.CACHE_NAME (href (url request))); simpl; auto.
Qed.

Lemma storage_lookup_opened (s : CacheStorage) (name key : string) :
  storage_lookup (opened_storage s name) key = storage_lookup s key.
Proof.
  unfold opened_storage. destruct (has_cache s name);
    [ reflexivity | apply storage_lookup_new_cache ].
Qed.

(** After a miss the key resolves to the response exactly when the response
    is valid and neither the open nor the put was rejected. *)
Lemma store_after_miss_lookup
      (env : Env) (name key : string) (resp : Response) (s : CacheStorage) :
  storage_lookup s key = None ->
  (storage_lookup (store_after_miss env name key resp s) key = Some resp
   <-> status resp = 200 /\ type resp = "basic" /\
       open_raises env name = false /\ put_raises env name key = false) /\
  (storage_lookup (store_after_miss env name key resp s) key = None
   <-> ~ (status resp = 200 /\ type resp = "basic" /\
          open_raises env name = false /\ put_raises env name key = false)).
Proof.
  intros Hmiss. unfold store_after_miss.
  assert (storage_lookup
            (storage_put (opened_storage s name) name key resp) key
          = Some resp) as Hput
    by (apply storage_lookup_open_put; exact Hmiss).
  destruct (negb (status resp =? 200)%nat || negb (type resp =? "basic"))
    eqn:Hvalid.
  - assert (~ (status resp = 200 /\ type resp = "basic")) as Hinv.
    { intros Hv. apply valid_response_test in Hv. congruence. }
    rewrite Hmiss. split; split; intros H; try discriminate H; tauto.
  - apply valid_response_test in Hvalid.
    destruct (open_raises env name); [ | destruct (put_raises env name key) ];
      rewrite ?storage_lookup_opened, ?Hput, ?Hmiss;
      (split; split; intros H; try discriminate H; try reflexivity;
       try (decompose [and] H; discriminate);
       try (intros Hc; decompose [and] Hc; discriminate);
       try (exfalso; apply H; tauto);
       tauto).
Qed.

(** C2, amended. In production mode, a gated request that the store lookup
    misses and that the network answers is answered with the network
    response after exactly one network fetch, whatever the store does with
    what follows.  A response that does not have both status 200 and type
    basic leaves the store exactly as it was.  One that has both makes the
    handler open the current cache and put the response under the request's
    key, and nothing else in the store changes: a rejected open leaves the
    store as it was, a rejected put leaves only the opened cache.  So the
    store holds the response under the request's key afterwards exactly
    when the response has status 200 and type basic and neither the open
    nor the put was rejected, and holds nothing under that key otherwise. *)
Theorem C2_cache_miss_production
        (env : Env) (request : Request) (w : World) (resp : Response)
        (on_fetch : Env -> Request -> World -> Handled * World) :
  on_fetch = Sw.on_fetch \/
  (on_fetch = Part000.on_fetch /\ Part000.isDevelopment env = false) ->
  skips env request = false ->
  match_raises env (href (url request)) = false ->
  storage_lookup (storage w) (href (url request)) = None ->
  network env (length (fetched w)) (href (url request)) = NetOk resp ->
  let key := href (url request) in
  let after := storage (snd (on_fetch env request w)) in
  fst (on_fetch env request w) = RespondWith (Ok (Some resp)) /\
  fetched (snd (on_fetch env request w)) = fetched w ++ [key] /\
  after = store_after_miss env Sw.CACHE_NAME key resp (storage w) /\
  (status resp <> 200 \/ type resp <> "basic" -> after = storage w) /\
  (storage_lookup after key = Some resp
   <-> status resp = 200 /\ type resp = "basic" /\
       open_raises env Sw.CACHE_NAME = false /\
       put_raises env Sw.CACHE_NAME key = false) /\
  (storage_lookup after key = None
   <-> ~ (status resp = 200 /\ type resp = "basic" /\
          open_raises env Sw.CACHE_NAME = false /\
          put_raises env Sw.CACHE_NAME key = false)).
Proof.
  intros Hscript Hgate Hmatch Hmiss Hnet key after.
  assert (fst (on_fetch env request w) = RespondWith (Ok (Some resp)) /\
          fetched (snd (on_fetch env request w)) = fetched w ++ [key] /\
          after = store_after_miss env Sw.CACHE_NAME key resp (storage w))
    as (Hans & Hfetched & Hstore).
  { subst after key. destruct Hscript as [-> | [-> Hprod]];
      [ apply sw_miss_run | apply part000_miss_run ]; assumption. }
  split; [ exact Hans | ]. split; [ exact Hfetched | ].
  split; [ exact Hstore | ]. split.
  - intros Hinvalid. rewrite Hstore. unfold store_after_miss.
    destruct (negb (status resp =? 200)%nat || negb (type resp =? "basic"))
      eqn:Hvalid; [ reflexivity | ].
    apply valid_response_test in Hvalid. tauto.
  - rewrite Hstore. apply store_after_miss_lookup. exact Hmiss.
Qed.

(** A 200/basic page is returned and stored; a 404 is returned and the
    store stays empty. *)
Lemma C2_cache_miss_production_witness :
  let request := get prod_location "/app.js" "script" in
  let found := healthy prod_location 0 (serving (page "app")) in
  let missing :=
    healthy prod_location 0 (serving (mkResponse 404 "basic" "not found")) in
  (fst (Part000.on_fetch found request empty_world)
     = RespondWith (Ok (Some (page "app"))) /\
   storage_lookup (storage (snd (Part000.on_fetch found request empty_world)))
                  (href (url request)) = Some (page "app")) /\
  (fst (Sw.on_fetch missing request empty_world)
     = RespondWith (Ok (Some (mkResponse 404 "basic" "not found"))) /\
   storage (snd (Sw.on_fetch missing request empty_world)) = []).
Proof.
  intros request found missing. split.
  - destruct (@C2_cache_miss_production found request empty_world
                (page "app") Part000.on_fetch
                (or_intror (conj eq_refl eq_refl))
                eq_refl eq_refl eq_refl eq_refl)
      as (Hans & _ & _ & _ & Hstored & _).
    split; [ exact Hans | ].
    apply Hstored. repeat split.
  - destruct (@C2_cache_miss_production missing request empty_world
                (mkResponse 404 "basic" "not found") Sw.on_fetch
                (or_introl eq_refl)
                eq_refl eq_refl eq_refl eq_refl)
      as (Hans & _ & _ & Hkept & _).
    split; [ exact Hans | ].
    apply Hkept. left. discriminate.
Defined.

(** C2 as stated fails in two ways.  In development mode a 200/basic
    response is returned by the network-first block without being stored;
    and in production a put that the store rejects is caught and leaves
    nothing stored. *)
Lemma C2_counterexample :
  ~ cache_miss_claim Part000.on_fetch
      (healthy dev_location 0 (serving (page "app")))
      (get dev_location "/app.js" "script") empty_world /\
  ~ cache_miss_claim Sw.on_fetch
      (mkEnv prod_location 0 0 (serving (page "app")) no no
             (fun _ _ => true) false no false)
      (get prod_location "/app.js" "script") empty_world.
Proof.
  split; intros H;
    destruct (H (page "app") eq_refl eq_refl eq_refl eq_refl) as (_ & _ & Hiff);
    destruct Hiff as [_ Hstored];
    specialize (Hstored (conj eq_refl eq_refl)); vm_compute in Hstored;
    discriminate.
Qed.

(** *** Network failure *)

Lemma sw_offline (env : Env) (request : Request) (w : World) :
  skips env request = false ->
  (forall n, network env n (href (url request)) = NetFail) ->
  match_raises env (href (url request)) = false ->
  storage_lookup (storage w) (href (url request)) = None ->
  exists r,
    fst (Sw.on_fetch env request w) = RespondWith r /\
    page_receives r =
      if (destination request =? "document") &&
         negb (match_raises env (resolve env "/index.html"))
      then storage_lookup (storage w) (resolve env "/index.html")
      else None.
Proof.
  intros Hgate Hnet Hmatch Hmiss.
  unfold Sw.on_fetch. rewrite fetch_listener_respond by exact Hgate.
  unfold Sw.respond. unfold_promise. unfold_platform. simpl.
  rewrite Hmatch. simpl. rewrite Hmiss. simpl. rewrite Hnet. simpl.
  destruct (destination request =? "document"); simpl.
  - destruct (match_raises env (resolve env "/index.html")); simpl.
    + rewrite Hnet. simpl. eexists; split; reflexivity.
    + eexists; split; [ reflexivity | ].
      destruct (storage_lookup (storage w) (resolve env "/index.html"));
        reflexivity.
  - eexists; split; reflexivity.
Qed.

Lemma part000_offline (env : Env) (request : Request) (w : World) :
  skips env request = false ->
  (forall n, network env n (href (url request)) = NetFail) ->
  match_raises env (href (url request)) = false ->
  storage_lookup (storage w) (href (url request)) = None ->
  exists r,
    fst (Part000.on_fetch env request w) = RespondWith r /\
    page_receives r =
      if (destination request =? "document") &&
         negb (match_raises env (resolve env "/index.html"))
      then storage_lookup (storage w) (resolve env "/index.html")
      else None.
Proof.
  intros Hgate Hnet Hmatch Hmiss.
  unfold Part000.on_fetch. rewrite fetch_listener_respond by exact Hgate.
  unfold Part000.respond, Part000.dev_network_first, Part000.fetch_and_cache.
  destruct (Part000.isDevelopment env);
    unfold_promise; unfold_platform; simpl;
    repeat (rewrite ?Hnet, ?Hmatch, ?Hmiss; simpl);
    (destruct (destination request =? "document"); simpl;
     [ destruct (match_raises env (resolve env "/index.html")); simpl;
       [ eexists; split; reflexivity
       | destruct (storage_lookup (storage w) (resolve env "/index.html"));
         simpl; eexists; split; reflexivity ]
     | eexists; split; reflexivity ]).
Qed.

(** C3. For a gated request whose every network attempt fails and which the
    store lookup does not find: when the destination is a document and the
    lookup of '/index.html' finds a stored document, that document is the
    answer; in every other case (a destination that is not a document, no
    stored '/index.html', or a lookup of it that fails) the page that issued
    the request observes a failed fetch.  Both scripts. *)
Theorem C3_offline_fallback
  (env : Env) (request : Request) (w : World)
  (on_fetch : Env -> Request -> World -> Handled * World) :
  on_fetch = Sw.on_fetch \/ on_fetch = Part000.on_fetch ->
  skips env request = false ->
  (forall n, network env n (href (url request)) = NetFail) ->
  match_raises env (href (url request)) = false ->
  storage_lookup (storage w) (href (url request)) = None ->
  exists r,
    fst (on_fetch env request w) = RespondWith r /\
    (forall shell,
       destination request = "document" ->
       match_raises env (resolve env "/index.html") = false ->
       storage_lookup (storage w) (resolve env "/index.html") = Some shell ->
       r = Ok (Some shell)) /\
    (destination request <> "document" \/
     match_raises env (resolve env "/index.html") = true \/
     storage_lookup (storage w) (resolve env "/index.html") = None ->
     page_receives r = None).
Proof.
  intros Hscript Hgate Hnet Hmatch Hmiss.
  assert (exists r,
    fst (on_fetch env request w) = RespondWith r /\
    page_receives r =
      if (destination request =? "document") &&
         negb (match_raises env (resolve env "/index.html"))
      then storage_lookup (storage w) (resolve env "/index.html")
      else None) as (r & Hr & Hpage).
  { destruct Hscript as [-> | ->];
      [ apply sw_offline | apply part000_offline ]; assumption. }
  exists r. split; [ exact Hr | split ].
  - intros shell Hdoc Hidx Hshell.
    apply String.eqb_eq in Hdoc.
    rewrite Hdoc, Hidx, Hshell in Hpage. simpl in Hpage.
    destruct r as [[resp |] | e]; simpl in Hpage; congruence.
  - intros [Hdoc | [Hidx | Hshell]].
    + apply String.eqb_neq in Hdoc. rewrite Hdoc in Hpage. exact Hpage.
    + rewrite Hidx, andb_false_r in Hpage. exact Hpage.
    + rewrite Hshell in Hpage.
      destruct (_ && _) in Hpage; exact Hpage.
Qed.

Lemma C3_offline_fallback_witness :
  let env := healthy prod_location 0 offline in
  let w := world_with
             [(Sw.CACHE_NAME, [((site ++ "/index.html")%string, page "shell")])] in
  (exists r,
     fst (Part000.on_fetch env (get prod_location "/chat" "document") w) = RespondWith r /\
     r = Ok (Some (page "shell"))) /\
  (exists r,
     fst (Sw.on_fetch env (get prod_location "/app.js" "script") w) = RespondWith r /\
     page_receives r = None).
Proof.
  intros env w. split.
  - destruct (@C3_offline_fallback env (get prod_location "/chat" "document") w
                Part000.on_fetch (or_intror eq_refl) eq_refl
                (fun _ => eq_refl) eq_refl eq_refl) as (r & Hr & Hshell & _).
    exists r. split; [ exact Hr | ].
    apply Hshell; reflexivity.
  - destruct (@C3_offline_fallback env (get prod_location "/app.js" "script") w
                Sw.on_fetch (or_introl eq_refl) eq_refl
                (fun _ => eq_refl) eq_refl eq_refl) as (r & Hr & _ & Hfail).
    exists r. split; [ exact Hr | ].
    apply Hfail. left. discriminate.
Defined.

(** *** Activation *)

Section Cleanup.

Variable env : Env.
Variable current : string.

Lemma filter_filter {A} (f g : A -> bool) (l : list A) :
  filter f (filter g l) = filter (fun x => g x && f x) l.
Proof.
  induction l as [| a l IH]; simpl; [ reflexivity | ].
  destruct (g a); simpl; [ destruct (f a) | ]; rewrite IH; reflexivity.
Qed.

Lemma cleanup_tasks_run (ns : list string) :
  forall w : World,
  exists results,
    allSettled (map (delete_if_old env current) ns) w
      = (Ok results, after_cleanup env current ns w) /\
    length (filter (@is_fulfilled _) results)
      = length (filter (fun n => (n =? current) || negb (delete_raises env n)) ns) /\
    length (filter (@is_rejected _) results)
      = length (filter (fun n => negb (n =? current) && delete_raises env n) ns).
Proof.
  induction ns as [| n ns IH]; intros w.
  - exists []. unfold after_cleanup, kept. simpl.
    rewrite !app_nil_r.
    replace (filter (fun _ => true) (storage w)) with (storage w).
    + destruct w; auto.
    + clear. induction (storage w) as [| a l IHl]; simpl; congruence.
  - simpl. unfold delete_if_old at 1.
    destruct (n =? current) eqn:Hn; simpl.
    + destruct (IH w) as (rs & Hrun & Hok & Hko).
      unfold ret at 1. unfold bind. rewrite Hrun.
      exists (Fulfilled None :: rs). simpl.
      split; [ | split; congruence ].
      unfold ret. f_equal. unfold after_cleanup. simpl. rewrite Hn. simpl.
      f_equal.
      apply filter_ext. intros nc. unfold kept, deleted. simpl.
      rewrite Hn. reflexivity.
    + unfold_promise. unfold caches_delete. simpl.
      destruct (delete_raises env n) eqn:Hraise; simpl.
      * match goal with
        | |- context [allSettled _ ?w1] =>
            destruct (IH w1) as (rs & Hrun & Hok & Hko); rewrite Hrun
        end.
        exists (Rejected (StoreError "delete") :: rs). simpl.
        split; [ | split; congruence ].
        f_equal. unfold after_cleanup. simpl. rewrite Hn. simpl.
        rewrite <- !app_assoc. simpl. f_equal.
        apply filter_ext. intros nc. unfold kept, deleted. simpl.
        rewrite Hn, Hraise. reflexivity.
      * match goal with
        | |- context [allSettled _ ?w1] =>
            destruct (IH w1) as (rs & Hrun & Hok & Hko); rewrite Hrun
        end.
        eexists (Fulfilled (Some _) :: rs). simpl.
        split; [ | split; congruence ].
        f_equal. unfold after_cleanup. simpl. rewrite Hn. simpl.
        rewrite <- !app_assoc. simpl. f_equal.
        unfold storage_delete. rewrite filter_filter.
        apply filter_ext. intros nc. unfold kept, deleted. simpl.
        rewrite Hn, Hraise. simpl. rewrite negb_orb. reflexivity.
Qed.

(** Over the names the store itself lists, the caches left are those named
    like the current generation and those whose deletion was rejected. *)
Lemma kept_own_names (s : CacheStorage) :
  filter (kept env current (map fst s)) s
  = filter (fun nc => (fst nc =? current) || delete_raises env (fst nc)) s.
Proof.
  apply filter_ext_in. intros nc Hin. unfold kept.
  assert (existsb (fun n => deleted env current n && (fst nc =? n)) (map fst s)
          = deleted env current (fst nc)) as ->.
  { apply Bool.eq_iff_eq_true. rewrite existsb_exists. split.
    - intros (n & _ & Hn). apply andb_true_iff in Hn as [Hd He].
      apply String.eqb_eq in He. congruence.
    - intros Hd. exists (fst nc). split.
      + apply in_map. exact Hin.
      + rewrite Hd, String.eqb_refl. reflexivity. }
  unfold deleted. rewrite negb_andb, !negb_involutive. reflexivity.
Qed.

Lemma on_activate_run (w : World) :
  keys_raises env = false ->
  let names := map fst (storage w) in
  on_activate env current w =
  (Ok tt,
   add_console
     (LogCacheCleanup
        (length (filter (fun n => (n =? current) || negb (delete_raises env n)) names))
        (length (filter (fun n => negb (n =? current) && delete_raises env n) names)))
     (after_cleanup env current names (add_storeop OpKeys (add_console LogActivating w)))).
Proof.
  intros Hkeys names. unfold on_activate.
  unfold_promise. unfold caches_keys. simpl. rewrite Hkeys. simpl.
  fold names.
  destruct (cleanup_tasks_run names
              (add_storeop OpKeys (add_console LogActivating w)))
    as (rs & Hrun & Hok & Hko).
  rewrite Hrun, Hok, Hko. reflexivity.
Qed.

(** X2. The activate task completes normally whatever the store does. *)
Lemma on_activate_never_raises (w : World) :
  fst (on_activate env current w) = Ok tt.
Proof.
  destruct (keys_raises env) eqn:Hkeys.
  - unfold on_activate. unfold_promise. unfold caches_keys. simpl.
    rewrite Hkeys. reflexivity.
  - rewrite on_activate_run by exact Hkeys. reflexivity.
Qed.

End Cleanup.

(** C5. When the store's names can be listed, the activate task completes
    without raising; it requests the deletion of exactly the listed names
    that differ from the current generation identifier; the caches left are
    the current generation's and those whose deletion was rejected, so when
    no deletion is rejected exactly the differing names are gone and the
    current one remains; a cleanup over names that are absent, or whose
    deletion is rejected, still settles every task; and the last console
    line reports the number of fulfilled and of rejected tasks. *)
Theorem C5_activate_cleanup (env : Env) (current : string) (w : World) :
  keys_raises env = false ->
  let names := map fst (storage w) in
  let w' := snd (on_activate env current w) in
  fst (on_activate env current w) = Ok tt /\
  storeops w' = storeops w ++
    OpKeys :: map OpDelete (filter (fun n => negb (n =? current)) names) /\
  storage w' =
    filter (fun nc => (fst nc =? current) || delete_raises env (fst nc))
           (storage w) /\
  ((forall n, delete_raises env n = false) ->
   storage w' = filter (fun nc => fst nc =? current) (storage w)) /\
  (forall (ns : list string) (w0 : World),
     exists results,
       fst (allSettled (map (delete_if_old env current) ns) w0) = Ok results) /\
  (exists lines,
     console w' = lines ++
       [LogCacheCleanup
          (length (filter (fun n => (n =? current) || negb (delete_raises env n)) names))
          (length (filter (fun n => negb (n =? current) && delete_raises env n) names))]).
Proof.
  intros Hkeys names w'. subst w'.
  rewrite (on_activate_run env current w Hkeys). fold names. simpl.
  split; [ reflexivity | ].
  split; [ rewrite <- app_assoc; reflexivity | ].
  split; [ apply kept_own_names | ].
  split.
  - intros Hno. unfold names. rewrite kept_own_names.
    apply filter_ext. intros nc. rewrite Hno. apply orb_false_r.
  - split.
    + intros ns w0.
      destruct (cleanup_tasks_run env current ns w0) as (rs & Hrun & _).
      exists rs. rewrite Hrun. reflexivity.
    + eexists. reflexivity.
Qed.

(** Stores A, B and the current generation's: A and B are deleted. *)
Lemma C5_activate_cleanup_witness :
  let env := healthy prod_location 0 offline in
  let w := world_with [("A", []); (Sw.CACHE_NAME, []); ("B", [])] in
  storage (snd (on_activate env Sw.CACHE_NAME w)) = [(Sw.CACHE_NAME, [])] /\
  storeops (snd (on_activate env Sw.CACHE_NAME w))
    = [OpKeys; OpDelete "A"; OpDelete "B"].
Proof.
  intros env w.
  destruct (@C5_activate_cleanup env Sw.CACHE_NAME w eq_refl)
    as (_ & Hops & _ & Hstore & _).
  split.
  - rewrite Hstore; reflexivity.
  - rewrite Hops. reflexivity.
Defined.

(** *** Development mode *)

Lemma toString_inj (a b : N) : JS.toString a = JS.toString b -> a = b.
Proof.
  unfold JS.toString. intros H.
  apply DecimalN.Unsigned.to_uint_inj.
  assert (Some (N.to_uint a) = Some (N.to_uint b)) as Hs.
  { rewrite <- !NilEmpty.usu. rewrite H. reflexivity. }
  congruence.
Qed.

(** Development startups at different clock readings name different caches. *)
Lemma dev_cache_names_differ (env env' : Env) :
  Part000.isDevelopment env = true ->
  Part000.isDevelopment env' = true ->
  startup_now env' <> startup_now env ->
  Part000.CACHE_NAME env' <> Part000.CACHE_NAME env.
Proof.
  unfold Part000.CACHE_NAME. intros -> -> Hnow Heq.
  apply Hnow. apply toString_inj.
  simpl in Heq. congruence.
Qed.

(** The development worker started at clock reading 1000 and was installed:
    its cache holds the shell.  The same worker restarted at 2000 names
    another cache, and with the server down it answers a navigation to
    '/index.html' with the entry of the first one. *)
Lemma C6_counterexample : ~ fresh_generation_claim.
Proof.
  intros [_ Hfresh].
  pose (previous := healthy dev_location 1000 online).
  pose (env := healthy dev_location 2000 offline).
  pose (request := get dev_location "/index.html" "document").
  pose (w := snd (on_install previous (Part000.CACHE_NAME previous) empty_world)).
  apply (Hfresh env request w (page "http://localhost:3000/index.html"));
    try reflexivity.
  split; [ reflexivity | split ].
  - intros n. discriminate.
  - eexists. eexists.
    split; [ cbv; left; reflexivity | split; [ | reflexivity ] ].
    change "yourgpt-dev-1000" with (Part000.CACHE_NAME previous).
    apply dev_cache_names_differ; try reflexivity. discriminate.
Qed.

(** Where an answer of the final fetch block comes from. *)
Lemma fetch_and_cache_answer (env : Env) (request : Request) (w : World)
      (r : Response) :
  fst (Part000.fetch_and_cache env request w) = Ok (Some r) ->
  network env (length (fetched w)) (href (url request)) = NetOk r \/
  (destination request = "document" /\
   network env (length (fetched w)) (href (url request)) = NetFail /\
   storage_lookup (storage w) (resolve env "/index.html") = Some r).
Proof.
  unfold Part000.fetch_and_cache. unfold_promise. unfold_platform. simpl.
  destruct (network env (length (fetched w)) (href (url request)))
    as [r2 |]; simpl.
  - intros H. left. revert H.
    repeat match goal with
           | |- context [if ?b then _ else _] => destruct b; simpl
           end; congruence.
  - destruct (String.eqb_spec (destination request) "document"); simpl;
      [ | discriminate ].
    destruct (match_raises env (resolve env "/index.html")); simpl;
      [ discriminate | ].
    destruct (storage_lookup (storage w) (resolve env "/index.html"));
      simpl; [ | discriminate ].
    intros H. right. repeat split; congruence.
Qed.

(** The network-first block either answers with what the network gave or
    leaves the store as it was after one fetch. *)
Lemma dev_network_first_run (env : Env) (request : Request) (w : World) :
  Part000.isDevelopment env = true ->
  (exists r w1,
     Part000.dev_network_first env request w = (Ok (Some r), w1) /\
     network env (length (fetched w)) (href (url request)) = NetOk r) \/
  (exists w1,
     Part000.dev_network_first env request w = (Ok None, w1) /\
     fetched w1 = fetched w ++ [href (url request)] /\
     storage w1 = storage w /\
     storeops w1 = storeops w).
Proof.
  intros Hdev. unfold Part000.dev_network_first. rewrite Hdev.
  unfold_promise. unfold fetch.
  destruct (network env (length (fetched w)) (href (url request)))
    as [r1 |]; simpl.
  - destruct (status r1 =? 200)%nat; simpl.
    + left. eauto.
    + right. eexists. repeat split.
  - right. eexists. repeat split.
Qed.

(** In development mode a response is the answer only if the network gave
    it, or as the offline fallback of a document request. *)
Lemma dev_answer_origin (env : Env) (request : Request) (w : World)
      (r : Response) :
  Part000.isDevelopment env = true ->
  skips env request = false ->
  fst (Part000.on_fetch env request w) = RespondWith (Ok (Some r)) ->
  (exists n, network env n (href (url request)) = NetOk r) \/
  (destination request = "document" /\
   network env (S (length (fetched w))) (href (url request)) = NetFail /\
   storage_lookup (storage w) (resolve env "/index.html") = Some r).
Proof.
  intros Hdev Hgate.
  unfold Part000.on_fetch. rewrite fetch_listener_respond by exact Hgate.
  unfold Part000.respond. unfold bind at 1.
  destruct (dev_network_first_run env request w Hdev)
    as [(r1 & w1 & -> & Hnet) | (w1 & -> & Hfetched & Hstorage & _)].
  - unfold ret. simpl. intros H. left. exists (length (fetched w)). congruence.
  - unfold bind, caches_match. simpl.
    destruct (match_raises env (href (url request))); simpl;
      [ discriminate | ].
    rewrite Hdev. simpl.
    assert (forall w2,
              fetched w2 = fetched w1 -> storage w2 = storage w1 ->
              fst (Part000.fetch_and_cache env request w2) = Ok (Some r) ->
              (exists n, network env n (href (url request)) = NetOk r) \/
              (destination request = "document" /\
               network env (S (length (fetched w))) (href (url request))
                 = NetFail /\
               storage_lookup (storage w) (resolve env "/index.html") = Some r))
      as Hblock.
    { intros w2 Hf Hs Hans.
      apply fetch_and_cache_answer in Hans.
      rewrite Hf, Hfetched, length_app, Hs, Hstorage in Hans. simpl in Hans.
      rewrite Nat.add_1_r in Hans.
      destruct Hans as [Hans | Hans]; [ left; eauto | right; exact Hans ]. }
    destruct (storage_lookup (storage w1) (href (url request)));
      intros H; injection H as H;
      (eapply Hblock; [ | | exact H ]; reflexivity).
Qed.

(** C6, amended. In development mode, startups at different clock readings
    produce different generation identifiers; and a response is the answer
    to a gated request only if the network gave it during the handling or,
    when the second network attempt fails and the destination is a document,
    if it is the '/index.html' entry that a lookup over all caches finds,
    whichever generation wrote it. *)
Theorem C6_dev_generations (env : Env) :
  Part000.isDevelopment env = true ->
  (forall env',
     Part000.isDevelopment env' = true ->
     startup_now env' <> startup_now env ->
     Part000.CACHE_NAME env' <> Part000.CACHE_NAME env) /\
  (forall request w r,
     skips env request = false ->
     fst (Part000.on_fetch env request w) = RespondWith (Ok (Some r)) ->
     (exists n, network env n (href (url request)) = NetOk r) \/
     (destination request = "document" /\
      network env (S (length (fetched w))) (href (url request)) = NetFail /\
      storage_lookup (storage w) (resolve env "/index.html") = Some r)).
Proof.
  intros Hdev. split.
  - intros env' Hdev' Hnow. apply dev_cache_names_differ; assumption.
  - intros request w r Hgate Hans.
    apply dev_answer_origin; assumption.
Qed.

Lemma C6_dev_generations_witness :
  let env := healthy dev_location 2000 (serving (page "fresh shell")) in
  let request := get dev_location "/index.html" "document" in
  let w := world_with
             [("yourgpt-dev-1000",
               [("http://localhost:3000/index.html", page "old shell")])] in
  Part000.CACHE_NAME (healthy dev_location 1000 offline)
    <> Part000.CACHE_NAME env /\
  fst (Part000.on_fetch env request w)
    = RespondWith (Ok (Some (page "fresh shell"))).
Proof.
  intros env request w.
  destruct (@C6_dev_generations env eq_refl) as [Hnames _].
  split; [ | reflexivity ].
  apply Hnames; [ reflexivity | discriminate ].
Defined.

(** X6. In development mode a request that is not for a document and that
    the network does not answer is never answered with a response, whatever
    the store holds for it. *)
Lemma dev_offline_ignores_store (env : Env) (request : Request) (w : World) :
  Part000.isDevelopment env = true ->
  skips env request = false ->
  (forall n, network env n (href (url request)) = NetFail) ->
  destination request <> "document" ->
  forall r, fst (Part000.on_fetch env request w) <> RespondWith (Ok (Some r)).
Proof.
  intros Hdev Hgate Hnet Hdest r Hans.
  destruct (dev_answer_origin env request w Hdev Hgate Hans)
    as [[n Hn] | [Hdoc _]].
  - rewrite Hnet in Hn. discriminate.
  - contradiction.
Qed.

Lemma dev_offline_ignores_store_witness :
  let env := healthy dev_location 2000 offline in
  let request := get dev_location "/app.js" "script" in
  let w := world_with
             [(Part000.CACHE_NAME env,
               [("http://localhost:3000/app.js", page "app")])] in
  fst (Part000.on_fetch env request w) <> RespondWith (Ok (Some (page "app"))).
Proof.
  intros env request w.
  apply (@dev_offline_ignores_store env request w);
    [ reflexivity | reflexivity | intros n; reflexivity | discriminate ].
Defined.

Lemma dev_network_first_storage (env : Env) (request : Request) (w : World) :
  storage (snd (Part000.dev_network_first env request w)) = storage w.
Proof.
  unfold Part000.dev_network_first.
  destruct (Part000.isDevelopment env); [ | reflexivity ].
  unfold_promise. unfold fetch.
  destruct (network env (length (fetched w)) (href (url request)))
    as [r1 |]; simpl; [ destruct (status r1 =? 200)%nat | ]; reflexivity.
Qed.

Lemma fetch_and_cache_shell_storage (env : Env) (request : Request) (w : World) :
  Part000.isDevelopment env = true ->
  JS.includes (href (url request)) "index.html" = true ->
  storage (snd (Part000.fetch_and_cache env request w)) = storage w.
Proof.
  intros Hdev Hshell. unfold Part000.fetch_and_cache.
  rewrite Hdev, Hshell. unfold_promise. unfold_platform. simpl.
  destruct (network env (length (fetched w)) (href (url request)))
    as [r2 |]; simpl;
    repeat match goal with
           | |- context [if ?b then _ else _] => destruct b; simpl
           | |- context [match storage_lookup ?s ?k with _ => _ end] =>
               destruct (storage_lookup s k); simpl
           end; reflexivity.
Qed.

(** X3. In development mode the fetch listener never changes the store for
    a request whose URL contains 'index.html'. *)
Lemma dev_shell_not_written (env : Env) (request : Request) (w : World) :
  Part000.isDevelopment env = true ->
  JS.includes (href (url request)) "index.html" = true ->
  storage (snd (Part000.on_fetch env request w)) = storage w.
Proof.
  intros Hdev Hshell. unfold Part000.on_fetch, fetch_listener.
  destruct (skips env request); [ reflexivity | ].
  destruct (Part000.respond env request w) as [res w'] eqn:Hrun. simpl.
  change w' with (snd (res, w')). rewrite <- Hrun. clear Hrun.
  unfold Part000.respond. unfold bind at 1.
  pose proof (dev_network_first_storage env request w) as Hfirst.
  destruct (Part000.dev_network_first env request w) as [[[r1 |] | e] w1];
    simpl in Hfirst; try exact Hfirst.
  unfold bind, caches_match. simpl.
  destruct (match_raises env (href (url request))); simpl;
    [ exact Hfirst | ].
  rewrite Hdev. simpl.
  destruct (storage_lookup (storage w1) (href (url request)));
    rewrite fetch_and_cache_shell_storage by assumption; exact Hfirst.
Qed.

Lemma dev_shell_not_written_witness :
  storage (snd (Part000.on_fetch (healthy dev_location 2000 online)
                  (get dev_location "/index.html" "document") empty_world))
  = [].
Proof.
  apply (@dev_shell_not_written (healthy dev_location 2000 online)
           (get dev_location "/index.html" "document") empty_world);
    reflexivity.
Defined.

(** C7, at the input where the script departs from it.  A development
    worker is installed while the server is up, so its current cache holds
    '/manifest.json'; then the server goes down.  For a request of the
    manifest the lookup is made and finds the entry, yet the handler fetches
    a second time and rejects with the network error instead of answering
    from the store. *)
Theorem C7_dev_lookup_discarded :
  let env := healthy dev_location 2000 (up_until 5) in
  let request := get dev_location "/manifest.json" "manifest" in
  let w := snd (on_install env (Part000.CACHE_NAME env) empty_world) in
  Part000.isDevelopment env = true /\
  skips env request = false /\
  storage_lookup (storage w) (href (url request))
    = Some (page "http://localhost:3000/manifest.json") /\
  fst (Part000.on_fetch env request w) = RespondWith (Raise (NetworkError 6)) /\
  storeops (snd (Part000.on_fetch env request w))
    = storeops w ++ [OpMatch "http://localhost:3000/manifest.json"] /\
  fetched (snd (Part000.on_fetch env request w))
    = fetched w ++ ["http://localhost:3000/manifest.json";
                    "http://localhost:3000/manifest.json"].
Proof. repeat split. Qed.

(** *** Installation *)

Lemma allSettled_fulfilled {A} (ms : list (M A)) :
  (forall m w, In m ms -> exists a w', m w = (Ok a, w')) ->
  forall w, exists results w',
    allSettled ms w = (Ok results, w') /\
    length results = length ms /\
    filter (@is_fulfilled A) results = results /\
    filter (@is_rejected A) results = [].
Proof.
  induction ms as [| m ms IH]; intros Hok w.
  - exists [], w. repeat split.
  - simpl. destruct (Hok m w (or_introl eq_refl)) as (a & w1 & ->).
    destruct (IH (fun m' w' Hin => Hok m' w' (or_intror Hin)) w1)
      as (rs & w2 & Hrun & Hlen & Hf & Hr).
    unfold bind. rewrite Hrun. unfold ret.
    exists (Fulfilled a :: rs), w2. simpl. rewrite Hf, Hr, Hlen.
    repeat split.
Qed.

(** A seed task settles as fulfilled whether or not the seed was stored. *)
Lemma add_seed_fulfils (env : Env) (cache u : string) (w : World) :
  exists a w', add_seed env cache u w = (Ok a, w').
Proof.
  unfold add_seed, cache_add. unfold_promise. unfold_platform.
  destruct (network env (length (fetched w)) (resolve env u)) as [r |]; simpl;
    [ | eauto ].
  destruct (ok r); simpl; [ | eauto ].
  destruct (put_raises env cache (resolve env u)); simpl; eauto.
Qed.

(** Every seed task settles as fulfilled. *)
Lemma seed_tasks_run (env : Env) (cache : string) (us : list string) (w : World) :
  exists results w',
    allSettled (map (add_seed env cache) us) w = (Ok results, w') /\
    length (filter (@is_fulfilled _) results) = length us /\
    length (filter (@is_rejected _) results) = 0.
Proof.
  destruct (@allSettled_fulfilled _ (map (add_seed env cache) us)) with (w := w)
    as (rs & w' & Hrun & Hlen & Hf & Hr).
  - intros m w0 Hin. apply in_map_iff in Hin as (u & <- & _).
    apply add_seed_fulfils.
  - exists rs, w'. rewrite Hf, Hr, Hlen, length_map. auto.
Qed.

Ltac run_install :=
  cbv [on_install bind catch log caches_open];
  repeat match goal with
         | |- context [if ?b then _ else _] => destruct b
         end;
  try match goal with
      | |- context [allSettled (map (add_seed ?e ?c) ?us) ?w0] =>
          destruct (seed_tasks_run e c us w0) as (rs & w2 & Hrun & Hok & Hko);
          rewrite Hrun, Hok, Hko
      end.

(** X1. The install task completes normally whatever the network and the
    store do: no seed failure and no store failure makes it raise. *)
Lemma on_install_never_raises (env : Env) (name : string) (w : World) :
  fst (on_install env name w) = Ok tt.
Proof. run_install; reflexivity. Qed.

(** X4. Once the cache is open, the tally the install task reports is
    always "5 successful, 0 failed", whatever became of the seeds. *)
Lemma on_install_tally (env : Env) (name : string) (w : World) :
  open_raises env name = false ->
  exists lines,
    console (snd (on_install env name w))
      = lines ++ [LogCacheInstallation 5 0].
Proof.
  intros Hopen. cbv [on_install bind catch log caches_open]. rewrite Hopen.
  destruct (has_cache _ name);
    match goal with
    | |- context [allSettled (map (add_seed ?e ?c) ?us) ?w0] =>
        destruct (seed_tasks_run e c us w0) as (rs & w2 & Hrun & Hok & Hko);
        rewrite Hrun, Hok, Hko
    end; simpl; eexists; reflexivity.
Qed.

Lemma on_install_tally_witness :
  exists lines,
    console (snd (on_install (healthy prod_location 0 offline)
                    Sw.CACHE_NAME empty_world))
      = lines ++ [LogCacheInstallation 5 0].
Proof.
  apply (@on_install_tally (healthy prod_location 0 offline)
           Sw.CACHE_NAME empty_world).
  reflexivity.
Defined.

(** C8, at the input where the script departs from it.  The network fails
    for '/manifest.json' only.  The install task completes, the other four
    seeds are stored, the failure is logged for its URL, and the tally that
    is reported is 5 successful and 0 failed. *)
Theorem C8_install_tally_miscounts :
  let env := healthy prod_location 0
               (fun _ u => if u =? "https://yourgpt.app/manifest.json"
                           then NetFail else NetOk (page u)) in
  let w' := snd (on_install env Sw.CACHE_NAME empty_world) in
  fst (on_install env Sw.CACHE_NAME empty_world) = Ok tt /\
  map (fun u => storage_lookup (storage w') (resolve env u)) urlsToCache
    = [Some (page "https://yourgpt.app/");
       Some (page "https://yourgpt.app/index.html");
       None;
       Some (page "https://cdn.jsdelivr.net/npm/marked/marked.min.js");
       Some (page "https://fonts.googleapis.com/css2?family=Inter:wght@400;500;600;700&display=swap")] /\
  console w'
    = [LogInstalling; LogOpenedCache;
       LogFailedToCache "/manifest.json" (NetworkError 2);
       LogCacheInstallation 5 0].
Proof. repeat split. Qed.

(** *** Store failures *)

(** X5. In [part_000], in production mode, a rejected lookup of the request
    rejects the whole response task, before any network fetch. *)
Lemma part000_match_failure_escapes (env : Env) (request : Request) (w : World) :
  Part000.isDevelopment env = false ->
  skips env request = false ->
  match_raises env (href (url request)) = true ->
  Part000.on_fetch env request w
  = (RespondWith (Raise (StoreError "match")),
     add_storeop (OpMatch (href (url request))) w).
Proof.
  intros Hprod Hgate Hmatch.
  unfold Part000.on_fetch, fetch_listener. rewrite Hgate.
  unfold Part000.respond, Part000.dev_network_first. rewrite Hprod.
  unfold_promise. unfold_platform. simpl. rewrite Hmatch. reflexivity.
Qed.

Lemma part000_match_failure_escapes_witness :
  let env := mkEnv prod_location 0 0 online (fun _ => true) no no2 false no false in
  let request := get prod_location "/app.js" "script" in
  Part000.on_fetch env request empty_world
  = (RespondWith (Raise (StoreError "match")),
     add_storeop (OpMatch (href (url request))) empty_world).
Proof.
  intros env request.
  apply (@part000_match_failure_escapes env request empty_world);
    reflexivity.
Defined.

(** In [sw.js] the same failure is caught and answered from the network. *)
Lemma sw_match_failure_caught (env : Env) (request : Request) (w : World)
      (resp : Response) :
  skips env request = false ->
  match_raises env (href (url request)) = true ->
  network env (length (fetched w)) (href (url request)) = NetOk resp ->
  fst (Sw.on_fetch env request w) = RespondWith (Ok (Some resp)).
Proof.
  intros Hgate Hmatch Hnet.
  unfold Sw.on_fetch, fetch_listener. rewrite Hgate.
  unfold Sw.respond. unfold_promise. unfold_platform. simpl.
  rewrite Hmatch. simpl. rewrite Hnet. reflexivity.
Qed.

(** C9, at the input where the scripts depart from it.  The store rejects
    every lookup and the network is up.  In [part_000] (production mode) the
    rejection of [caches.match] leaves the response task as its failure and
    the network is never tried, where [sw.js] catches it and answers from
    the network.  And in [sw.js] a rejected put is caught by nobody: it ends
    as an unhandled rejection. *)
Theorem C9_store_failure_escapes :
  let request := get prod_location "/app.js" "script" in
  let lookups_fail :=
    mkEnv prod_location 0 0 (serving (page "app"))
          (fun _ => true) no no2 false no false in
  let puts_fail :=
    mkEnv prod_location 0 0 (serving (page "app"))
          no no (fun _ _ => true) false no false in
  Part000.isDevelopment lookups_fail = false /\
  fst (Part000.on_fetch lookups_fail request empty_world)
    = RespondWith (Raise (StoreError "match")) /\
  fetched (snd (Part000.on_fetch lookups_fail request empty_world)) = [] /\
  fst (Sw.on_fetch lookups_fail request empty_world)
    = RespondWith (Ok (Some (page "app"))) /\
  unhandled (snd (Sw.on_fetch puts_fail request empty_world))
    = [StoreError "put"] /\
  console (snd (Sw.on_fetch puts_fail request empty_world)) = [].
Proof. repeat split. Qed.

(* ================================================================== *)
(** ** Further properties of the scripts *)

(** *** Strings *)

Lemma prefix_spec (sub s : string) :
  String.prefix sub s = true <-> exists b, s = (sub ++ b)%string.
Proof.
  revert s. induction sub as [| a sub IH]; intros s; simpl.
  - split; [ intros _; exists s; reflexivity | destruct s; reflexivity ].
  - destruct s as [| a' s]; simpl.
    + split; [ discriminate | intros [b Hb]; discriminate ].
    + destruct (Ascii.ascii_dec a a') as [-> | Hne].
      * rewrite IH. split; intros [b Hb]; exists b; congruence.
      * split; [ discriminate | intros [b Hb]; congruence ].
Qed.

(** [s.includes(sub)] holds exactly when [sub] occurs somewhere in [s]. *)
Lemma includes_spec (s sub : string) :
  JS.includes s sub = true <-> exists a b, s = (a ++ sub ++ b)%string.
Proof.
  induction s as [| c s IH].
  - change (JS.includes "" sub) with (String.prefix sub "" || false).
    rewrite orb_false_r, prefix_spec. split.
    + intros [b Hb]. exists "", b. exact Hb.
    + intros (a & b & Hab). destruct a; [ exists b; exact Hab | discriminate ].
  - change (JS.includes (String c s) sub)
      with (String.prefix sub (String c s) || JS.includes s sub).
    rewrite orb_true_iff, prefix_spec, IH. split.
    + intros [[b Hb] | (a & b & Hab)].
      * exists "", b. exact Hb.
      * exists (String c a), b. simpl. congruence.
    + intros (a & b & Hab). destruct a as [| c' a]; simpl in Hab.
      * left. exists b. exact Hab.
      * right. exists a, b. congruence.
Qed.

Lemma append_inj_left (o a b : string) :
  (o ++ a)%string = (o ++ b)%string -> a = b.
Proof. induction o; simpl; intros H; [ exact H | apply IHo; congruence ]. Qed.

Lemma last_char_append (o b : string) :
  b <> "" -> last_char (o ++ b) = last_char b.
Proof.
  intros Hb. induction o as [| a o IH]; simpl; [ reflexivity | ].
  rewrite IH. destruct b as [| c b]; [ contradiction | ].
  simpl. destruct (last_char b); reflexivity.
Qed.

(** *** Mode detection and the cache name *)

(** X8. The worker runs in development mode exactly when its hostname is
    127.0.0.1 or contains "local" anywhere, or its port is 3000, 8080 or
    5000; the test for "localhost" adds nothing to the test for "local". *)
Theorem isDevelopment_spec (env : Env) :
  Part000.isDevelopment env = true <->
  loc_hostname (location env) = "127.0.0.1" \/
  (exists a b, loc_hostname (location env) = (a ++ "local" ++ b)%string) \/
  loc_port (location env) = "3000" \/
  loc_port (location env) = "8080" \/
  loc_port (location env) = "5000".
Proof.
  unfold Part000.isDevelopment.
  rewrite !orb_true_iff, !String.eqb_eq, includes_spec.
  split.
  - intros [[[[[H | H] | H] | H] | H] | H]; auto 6.
    right. left. exists "", "host". rewrite H. reflexivity.
  - intros [H | [H | [H | [H | H]]]]; auto 10.
Qed.

(** X9. Two workers name the same cache exactly when they run in the same
    mode and, in development mode, were started at the same clock reading:
    the production name does not depend on the clock, a development name is
    never the production name, and development names differ with the
    clock. *)
Theorem CACHE_NAME_spec (env env' : Env) :
  Part000.CACHE_NAME env = Part000.CACHE_NAME env' <->
  Part000.isDevelopment env = Part000.isDevelopment env' /\
  (Part000.isDevelopment env = true -> startup_now env = startup_now env').
Proof.
  unfold Part000.CACHE_NAME.
  destruct (Part000.isDevelopment env), (Part000.isDevelopment env');
    simpl; split.
  - intros H. split; [ reflexivity | intros _ ].
    apply toString_inj. congruence.
  - intros [_ H]. rewrite (H eq_refl). reflexivity.
  - intros H. discriminate H.
  - intros [H _]. discriminate H.
  - intros H. discriminate H.
  - intros [H _]. discriminate H.
  - intros _. split; [ reflexivity | discriminate ].
  - reflexivity.
Qed.

(** *** Installation, seed by seed *)

Lemma cache_lookup_update_other (c : Cache) (key key' : string) (r : Response) :
  key' <> key ->
  cache_lookup (cache_update c key r) key' = cache_lookup c key'.
Proof.
  intros Hne. induction c as [| [k r0] c IH]; simpl.
  - destruct (String.eqb_spec key key'); [ congruence | reflexivity ].
  - destruct (String.eqb_spec k key) as [-> | Hk]; simpl.
    + destruct (String.eqb_spec key key'); [ congruence | reflexivity ].
    + destruct (k =? key'); [ reflexivity | exact IH ].
Qed.

Lemma lookup_in_put_same (s : CacheStorage) (name key : string) (r : Response) :
  has_cache s name = true ->
  lookup_in (storage_put s name key r) name key = Some r.
Proof.
  induction s as [| [n c] s IH]; simpl; [ discriminate | ].
  destruct (String.eqb_spec n name) as [-> | Hn]; simpl.
  - intros _. rewrite String.eqb_refl. apply cache_lookup_update.
  - intros Hhas. apply String.eqb_neq in Hn. rewrite Hn. apply IH. exact Hhas.
Qed.

Lemma lookup_in_put_other_key
      (s : CacheStorage) (name name' key key' : string) (r : Response) :
  key' <> key ->
  lookup_in (storage_put s name key r) name' key' = lookup_in s name' key'.
Proof.
  intros Hne. induction s as [| [n c] s IH]; simpl; [ reflexivity | ].
  destruct (String.eqb_spec n name) as [-> | Hn]; simpl;
    destruct (_ =? name'); try reflexivity; try exact IH.
  apply cache_lookup_update_other. exact Hne.
Qed.

Lemma storage_put_names (s : CacheStorage) (name key : string) (r : Response) :
  map fst (storage_put s name key r) = map fst s.
Proof.
  induction s as [| [n c] s IH]; simpl; [ reflexivity | ].
  destruct (n =? name); simpl; rewrite IH; reflexivity.
Qed.

Lemma storage_put_others (s : CacheStorage) (name key : string) (r : Response) :
  filter (fun nc => negb (fst nc =? name)) (storage_put s name key r)
  = filter (fun nc => negb (fst nc =? name)) s.
Proof.
  induction s as [| [n c] s IH]; simpl; [ reflexivity | ].
  destruct (n =? name) eqn:Hn; simpl; rewrite Hn; simpl; rewrite IH;
    reflexivity.
Qed.

Lemma has_cache_names (s s' : CacheStorage) (name : string) :
  map fst s' = map fst s -> has_cache s' name = has_cache s name.
Proof.
  assert (forall t : CacheStorage,
            has_cache t name = existsb (fun n => n =? name) (map fst t)) as Hby.
  { unfold has_cache. induction t as [| [n c] t IH]; simpl;
      [ reflexivity | rewrite IH; reflexivity ]. }
  intros H. rewrite !Hby, H. reflexivity.
Qed.

Lemma allSettled_cons_world {A} (m : M A) (ms : list (M A)) (w : World) :
  snd (allSettled (m :: ms) w) = snd (allSettled ms (snd (m w))).
Proof.
  simpl. destruct (m w) as [[a | e] w1]; simpl; unfold bind;
    destruct (allSettled ms w1) as [[rs | e'] w2]; reflexivity.
Qed.

Lemma add_seed_fetched (env : Env) (cache u : string) (w : World) :
  fetched (snd (add_seed env cache u w)) = fetched w ++ [resolve env u].
Proof.
  unfold add_seed, cache_add. unfold_promise. unfold_platform.
  destruct (network env (length (fetched w)) (resolve env u)) as [r |]; simpl;
    [ | reflexivity ].
  destruct (ok r); simpl; [ | reflexivity ].
  destruct (put_raises env cache (resolve env u)); reflexivity.
Qed.

Lemma add_seed_storage (env : Env) (cache u : string) (w : World) :
  storage (snd (add_seed env cache u w)) =
  match seed_response env cache u (length (fetched w)) with
  | Some r => storage_put (storage w) cache (resolve env u) r
  | None => storage w
  end.
Proof.
  unfold add_seed, cache_add, seed_response. unfold_promise. unfold_platform.
  destruct (network env (length (fetched w)) (resolve env u)) as [r |]; simpl;
    [ | reflexivity ].
  destruct (ok r); simpl; [ | reflexivity ].
  destruct (put_raises env cache (resolve env u)); reflexivity.
Qed.

Section SeedTasks.

Variable env : Env.
Variable cache : string.

Lemma seed_tasks_fetched (us : list string) :
  forall w, fetched (snd (allSettled (map (add_seed env cache) us) w)) = fetched w ++ map (resolve env) us.
Proof.
  induction us as [| u us IH]; intros w.
  - simpl. rewrite app_nil_r. reflexivity.
  - cbn [map]. rewrite allSettled_cons_world, IH, add_seed_fetched.
    rewrite <- app_assoc. reflexivity.
Qed.

Lemma seed_tasks_names (us : list string) :
  forall w, map fst (storage (snd (allSettled (map (add_seed env cache) us) w))) = map fst (storage w).
Proof.
  induction us as [| u us IH]; intros w; [ reflexivity | ].
  cbn [map]. rewrite allSettled_cons_world, IH, add_seed_storage.
  destruct (seed_response env cache u (length (fetched w)));
    [ apply storage_put_names | reflexivity ].
Qed.

Lemma seed_tasks_others (us : list string) :
  forall w,
    filter (fun nc => negb (fst nc =? cache)) (storage (snd (allSettled (map (add_seed env cache) us) w)))
    = filter (fun nc => negb (fst nc =? cache)) (storage w).
Proof.
  induction us as [| u us IH]; intros w; [ reflexivity | ].
  cbn [map]. rewrite allSettled_cons_world, IH, add_seed_storage.
  destruct (seed_response env cache u (length (fetched w)));
    [ apply storage_put_others | reflexivity ].
Qed.

Lemma seed_tasks_frame (us : list string) (name key : string) :
  ~ In key (map (resolve env) us) ->
  forall w,
    lookup_in (storage (snd (allSettled (map (add_seed env cache) us) w))) name key = lookup_in (storage w) name key.
Proof.
  induction us as [| u us IH]; intros Hout w; [ reflexivity | ].
  cbn [map] in *. rewrite allSettled_cons_world, IH, add_seed_storage.
  - destruct (seed_response env cache u (length (fetched w)));
      [ | reflexivity ].
    apply lookup_in_put_other_key. intros ->. apply Hout. left. reflexivity.
  - intros Hin. apply Hout. right. exact Hin.
Qed.

Lemma seed_tasks_entry (us : list string) :
  NoDup (map (resolve env) us) ->
  forall w i u,
    has_cache (storage w) cache = true ->
    nth_error us i = Some u ->
    lookup_in (storage (snd (allSettled (map (add_seed env cache) us) w))) cache (resolve env u) =
    match seed_response env cache u (length (fetched w) + i) with
    | Some r => Some r
    | None => lookup_in (storage w) cache (resolve env u)
    end.
Proof.
  induction us as [| u0 us IH]; intros Hnodup w i u Hhas Hnth.
  - destruct i; discriminate.
  - cbn [map] in *. inversion Hnodup as [| k ks Hout Hrest]; subst.
    rewrite allSettled_cons_world.
    destruct i as [| i]; simpl in Hnth.
    + injection Hnth as ->.
      rewrite seed_tasks_frame by exact Hout.
      rewrite add_seed_storage, Nat.add_0_r.
      destruct (seed_response env cache u (length (fetched w)));
        [ apply lookup_in_put_same; exact Hhas | reflexivity ].
    + rewrite (IH Hrest _ i u); [ | | exact Hnth ].
      * rewrite add_seed_fetched, length_app. simpl.
        replace (length (fetched w) + 1 + i) with (length (fetched w) + S i)
          by lia.
        destruct (seed_response env cache u (length (fetched w) + S i));
          [ reflexivity | ].
        rewrite add_seed_storage.
        destruct (seed_response env cache u0 (length (fetched w)));
          [ | reflexivity ].
        apply lookup_in_put_other_key. intros Heq. apply Hout.
        rewrite <- Heq. apply in_map. eapply nth_error_In. exact Hnth.
      * rewrite (has_cache_names (storage w)); [ exact Hhas | ].
        rewrite add_seed_storage.
        destruct (seed_response env cache u0 (length (fetched w)));
          [ apply storage_put_names | reflexivity ].
Qed.

End SeedTasks.

(** The keys of the five seeds are pairwise different, wherever the worker
    runs. *)
Lemma seeds_distinct (env : Env) : NoDup (map (resolve env) urlsToCache).
Proof.
  unfold urlsToCache, resolve. simpl.
  repeat constructor; simpl; intuition idtac;
    match goal with
    | H : _ = _ |- False =>
        first
          [ discriminate H
          | apply append_inj_left in H; discriminate H
          | apply (f_equal last_char) in H;
            rewrite ?last_char_append in H by discriminate;
            vm_compute in H; discriminate H ]
    end.
Qed.

Lemma lookup_in_new_cache (s : CacheStorage) (n name key : string) :
  lookup_in (s ++ [(n, [])]) name key = lookup_in s name key.
Proof.
  induction s as [| [n0 c] s IH]; simpl.
  - destruct (n =? name); reflexivity.
  - destruct (n0 =? name); [ reflexivity | exact IH ].
Qed.

Lemma filter_others_new_cache (s : CacheStorage) (name : string) :
  filter (fun nc => negb (fst nc =? name)) (s ++ [(name, [])])
  = filter (fun nc => negb (fst nc =? name)) s.
Proof.
  rewrite filter_app. simpl. rewrite String.eqb_refl. simpl.
  apply app_nil_r.
Qed.

(** The world in which the seed tasks start: the cache has been opened. *)
Lemma caches_open_world (env : Env) (name : string) (w : World) :
  open_raises env name = false ->
  fst (caches_open env name w) = Ok name /\
  fetched (snd (caches_open env name w)) = fetched w /\
  has_cache (storage (snd (caches_open env name w))) name = true /\
  (forall n key,
     lookup_in (storage (snd (caches_open env name w))) n key
     = lookup_in (storage w) n key) /\
  filter (fun nc => negb (fst nc =? name))
         (storage (snd (caches_open env name w)))
  = filter (fun nc => negb (fst nc =? name)) (storage w).
Proof.
  intros Hopen. unfold caches_open. simpl. rewrite Hopen.
  destruct (has_cache (storage w) name) eqn:Hhas; simpl.
  - repeat split; auto.
  - repeat split.
    + apply has_cache_new_cache.
    + intros n key. apply lookup_in_new_cache.
    + apply filter_others_new_cache.
Qed.

Lemma on_install_world (env : Env) (name : string) (w : World) :
  open_raises env name = false ->
  snd (on_install env name w) =
  add_console (LogCacheInstallation 5 0)
    (snd (allSettled (map (add_seed env name) urlsToCache)
            (add_console LogOpenedCache
               (snd (caches_open env name (add_console LogInstalling w)))))).
Proof.
  intros Hopen.
  destruct (caches_open_world env name (add_console LogInstalling w) Hopen)
    as (Hres & _).
  unfold on_install. unfold bind at 1. unfold log at 1.
  unfold catch. unfold bind at 1.
  destruct (caches_open env name (add_console LogInstalling w))
    as [res w1]. simpl in Hres. subst res.
  unfold bind at 1. unfold log at 1. unfold bind at 1.
  cbn [snd].
  destruct (seed_tasks_run env name urlsToCache (add_console LogOpenedCache w1))
    as (rs & w2 & Hrun & Hok & Hko).
  rewrite Hrun, Hok, Hko. reflexivity.
Qed.

Lemma on_install_open_fails (env : Env) (name : string) (w : World) :
  open_raises env name = true ->
  fetched (snd (on_install env name w)) = fetched w /\
  storage (snd (on_install env name w)) = storage w.
Proof.
  intros Hopen. cbv [on_install bind catch log caches_open].
  simpl. rewrite Hopen. split; reflexivity.
Qed.

(** X10. The install handler requests every seed URL from the network
    exactly once and in the order of the list, whatever the earlier seeds
    did; only when the cache cannot be opened is no seed requested. *)
Theorem install_requests_every_seed (env : Env) (name : string) (w : World) :
  fetched (snd (on_install env name w)) =
  fetched w ++
    (if open_raises env name then [] else map (resolve env) urlsToCache).
Proof.
  destruct (open_raises env name) eqn:Hopen.
  - destruct (on_install_open_fails env name w Hopen) as [-> _].
    rewrite app_nil_r. reflexivity.
  - rewrite on_install_world by exact Hopen.
    destruct (caches_open_world env name (add_console LogInstalling w) Hopen)
      as (_ & Hf & _).
    change (fetched (add_console (LogCacheInstallation 5 0) ?x))
      with (fetched x).
    rewrite seed_tasks_fetched. simpl. rewrite Hf. reflexivity.
Qed.

(** X11. The install handler changes no cache but the one it is given the
    name of: every cache of another name is exactly what it was, and when
    the open succeeds the named cache exists afterwards. *)
Theorem install_touches_only_its_cache (env : Env) (name : string) (w : World) :
  filter (fun nc => negb (fst nc =? name)) (storage (snd (on_install env name w)))
  = filter (fun nc => negb (fst nc =? name)) (storage w) /\
  (open_raises env name = false ->
   has_cache (storage (snd (on_install env name w))) name = true).
Proof.
  destruct (open_raises env name) eqn:Hopen.
  - destruct (on_install_open_fails env name w Hopen) as [_ ->].
    split; [ reflexivity | discriminate ].
  - rewrite on_install_world by exact Hopen.
    destruct (caches_open_world env name (add_console LogInstalling w) Hopen)
      as (_ & _ & Hhas & _ & Hothers).
    change (storage (add_console (LogCacheInstallation 5 0) ?x))
      with (storage x).
    split.
    + rewrite seed_tasks_others. exact Hothers.
    + intros _.
      pose proof (seed_tasks_names env name urlsToCache
                    (add_console LogOpenedCache
                       (snd (caches_open env name
                               (add_console LogInstalling w))))) as Hnames.
      rewrite (has_cache_names _ _ name Hnames). exact Hhas.
Qed.

(** What the installed cache holds for the [i]-th seed. *)
Lemma on_install_entry (env : Env) (name : string) (w : World)
      (i : nat) (u : string) :
  open_raises env name = false ->
  nth_error urlsToCache i = Some u ->
  lookup_in (storage (snd (on_install env name w))) name (resolve env u) =
  match seed_response env name u (length (fetched w) + i) with
  | Some r => Some r
  | None => lookup_in (storage w) name (resolve env u)
  end.
Proof.
  intros Hopen Hnth.
  rewrite on_install_world by exact Hopen.
  destruct (caches_open_world env name (add_console LogInstalling w) Hopen)
    as (_ & Hf & Hhas & Hlook & _).
  change (storage (add_console (LogCacheInstallation 5 0) ?x))
    with (storage x).
  rewrite (@seed_tasks_entry env name urlsToCache (seeds_distinct env) _ i u);
    [ | exact Hhas | exact Hnth ].
  simpl. rewrite Hf, Hlook. reflexivity.
Qed.

(** X12. Seeds are stored independently of each other.  After an install
    whose open succeeds, the installed cache holds for each seed the
    response its own fetch brought, when that response was ok and its put
    was not rejected, and otherwise what it held before; what became of
    the other seeds does not matter. *)
Theorem install_seed_entry (env : Env) (name : string) (w : World)
        (i : nat) (u : string) :
  open_raises env name = false ->
  nth_error urlsToCache i = Some u ->
  lookup_in (storage (snd (on_install env name w))) name (resolve env u) =
  match seed_response env name u (length (fetched w) + i) with
  | Some r => Some r
  | None => lookup_in (storage w) name (resolve env u)
  end.
Proof. apply on_install_entry. Qed.

(** With the network down for the first, third and fifth seed, the second
    one is stored all the same. *)
Lemma install_seed_entry_witness :
  let env := healthy prod_location 0
               (fun n u => if Nat.even n then NetFail else NetOk (page u)) in
  lookup_in (storage (snd (on_install env Sw.CACHE_NAME empty_world)))
            Sw.CACHE_NAME "https://yourgpt.app/index.html"
  = Some (page "https://yourgpt.app/index.html").
Proof.
  intros env.
  exact (@install_seed_entry env Sw.CACHE_NAME empty_world 1 "/index.html"
           eq_refl eq_refl).
Defined.

(** *** Activation, further *)

Lemma storage_lookup_found (s : CacheStorage) (key : string) (r : Response) :
  storage_lookup s key = Some r ->
  exists n c, In (n, c) s /\ cache_lookup c key = Some r.
Proof.
  induction s as [| [n c] s IH]; simpl; [ discriminate | ].
  destruct (cache_lookup c key) as [r0 |] eqn:Hc.
  - intros H. injection H as <-. exists n, c. auto.
  - intros H. destruct (IH H) as (n' & c' & Hin & Hc').
    exists n', c'. auto.
Qed.

Lemma on_activate_storage (env : Env) (current : string) (w : World) :
  keys_raises env = false ->
  storage (snd (on_activate env current w)) =
  filter (fun nc => (fst nc =? current) || delete_raises env (fst nc))
         (storage w).
Proof.
  intros Hkeys. rewrite on_activate_run by exact Hkeys. simpl.
  apply kept_own_names.
Qed.

(** X13. After an activation in which the names were listed and no deletion
    was rejected, only caches of the current generation are left, so
    whatever a lookup over all caches finds is an entry that the current
    generation's cache held before the activation. *)
Theorem activate_leaves_current_entries
        (env : Env) (current : string) (w : World) (key : string) (r : Response) :
  keys_raises env = false ->
  (forall n, delete_raises env n = false) ->
  storage_lookup (storage (snd (on_activate env current w))) key = Some r ->
  (forall nc, In nc (storage (snd (on_activate env current w))) ->
              fst nc = current) /\
  exists c, In (current, c) (storage w) /\ cache_lookup c key = Some r.
Proof.
  intros Hkeys Hdel Hfound.
  rewrite on_activate_storage in * by exact Hkeys.
  assert (forall nc,
            In nc (filter (fun nc => (fst nc =? current)
                                     || delete_raises env (fst nc))
                          (storage w)) ->
            In nc (storage w) /\ fst nc = current) as Hin.
  { intros nc H. apply filter_In in H as [H1 H2]. split; [ exact H1 | ].
    rewrite Hdel, orb_false_r in H2. apply String.eqb_eq. exact H2. }
  split.
  - intros nc H. apply Hin. exact H.
  - destruct (storage_lookup_found _ _ Hfound) as (n & c & Hnc & Hc).
    destruct (Hin _ Hnc) as [Hold Hname]. simpl in Hname. subst n.
    exists c. auto.
Qed.

Lemma activate_leaves_current_entries_witness :
  let env := healthy prod_location 0 offline in
  let w := world_with
             [("yourgpt-v0.9.0", [("https://yourgpt.app/", page "old")]);
              (Sw.CACHE_NAME, [("https://yourgpt.app/", page "new")])] in
  exists c, In (Sw.CACHE_NAME, c) (storage w) /\
            cache_lookup c "https://yourgpt.app/" = Some (page "new").
Proof.
  intros env w.
  apply (@activate_leaves_current_entries env Sw.CACHE_NAME w
           "https://yourgpt.app/" (page "new"));
    [ reflexivity | intros n; reflexivity | reflexivity ].
Defined.

(** X14. A second activation under the same generation name, when the
    names could be listed both times, leaves exactly the current cache and
    the caches whose deletion was rejected both times.  So it removes
    nothing more when every deletion that was rejected the first time is
    rejected again, in particular when none was rejected the first time;
    a cache whose deletion is accepted the second time is removed then. *)
Theorem activate_twice (first second : Env) (current : string) (w : World) :
  keys_raises first = false ->
  keys_raises second = false ->
  let once := snd (on_activate first current w) in
  let twice := snd (on_activate second current once) in
  storage twice =
    filter (fun nc => (fst nc =? current) ||
                      (delete_raises first (fst nc) &&
                       delete_raises second (fst nc)))
           (storage w) /\
  ((forall n, delete_raises first n = true -> delete_raises second n = true) ->
   storage twice = storage once) /\
  (forall nc, In nc (storage once) ->
              delete_raises second (fst nc) = false ->
              fst nc <> current ->
              ~ In nc (storage twice)).
Proof.
  intros Hfirst Hsecond once twice. subst twice once.
  rewrite (on_activate_storage second current _ Hsecond).
  rewrite (on_activate_storage first current w Hfirst).
  rewrite filter_filter.
  assert (forall nc : string * Cache,
            ((fst nc =? current) || delete_raises first (fst nc)) &&
            ((fst nc =? current) || delete_raises second (fst nc))
            = (fst nc =? current) ||
              (delete_raises first (fst nc) && delete_raises second (fst nc)))
    as Hboth.
  { intros nc. destruct (fst nc =? current), (delete_raises first (fst nc));
      reflexivity. }
  split; [ apply filter_ext; exact Hboth | split ].
  - intros Hagain. apply filter_ext. intros nc.
    destruct (fst nc =? current); simpl; [ reflexivity | ].
    destruct (delete_raises first (fst nc)) eqn:Hr; simpl; [ | reflexivity ].
    rewrite (Hagain _ Hr). reflexivity.
  - intros nc _ Haccepted Hold Hin.
    apply filter_In in Hin as [_ Hkept].
    apply String.eqb_neq in Hold.
    rewrite Haccepted, Hold, andb_false_r in Hkept. discriminate Hkept.
Qed.

(** The deletion of "B" is rejected the first time and accepted the
    second: "B" survives one activation and is gone after two. *)
Lemma activate_twice_witness :
  let first := mkEnv prod_location 0 0 offline no no no2 false
                     (fun n => n =? "B") false in
  let second := healthy prod_location 0 offline in
  let w := world_with [("A", []); ("B", []); (Sw.CACHE_NAME, [])] in
  storage (snd (on_activate first Sw.CACHE_NAME w))
  = [("B", []); (Sw.CACHE_NAME, [])] /\
  storage (snd (on_activate second Sw.CACHE_NAME
                  (snd (on_activate first Sw.CACHE_NAME w))))
  = [(Sw.CACHE_NAME, [])] /\
  storage (snd (on_activate first Sw.CACHE_NAME
                  (snd (on_activate first Sw.CACHE_NAME w))))
  = storage (snd (on_activate first Sw.CACHE_NAME w)).
Proof.
  intros first second w.
  split; [ reflexivity | split ].
  - destruct (@activate_twice first second Sw.CACHE_NAME w eq_refl eq_refl)
      as [-> _]. reflexivity.
  - destruct (@activate_twice first first Sw.CACHE_NAME w eq_refl eq_refl)
      as (_ & Hsame & _).
    apply Hsame. intros n Hn. exact Hn.
Defined.

(** X15. When the cache names cannot be listed, the activate handler
    deletes nothing: the store is what it was, the only store call is the
    failed listing, and the failure is logged instead of a tally. *)
Theorem activate_without_listing (env : Env) (current : string) (w : World) :
  keys_raises env = true ->
  on_activate env current w =
  (Ok tt,
   add_console (LogCacheCleanupFailed (StoreError "keys"))
     (add_storeop OpKeys (add_console LogActivating w))).
Proof.
  intros Hkeys. unfold on_activate. unfold_promise. unfold caches_keys.
  simpl. rewrite Hkeys. reflexivity.
Qed.

Lemma activate_without_listing_witness :
  let env := mkEnv prod_location 0 0 offline no no no2 true no false in
  let w := world_with [("A", []); (Sw.CACHE_NAME, [])] in
  storage (snd (on_activate env Sw.CACHE_NAME w)) = storage w.
Proof.
  intros env w.
  rewrite (@activate_without_listing env Sw.CACHE_NAME w eq_refl).
  reflexivity.
Defined.

(** *** The fetch handler and the store *)

Lemma change_put_existing (name key : string) (s : CacheStorage) (r : Response) :
  has_cache s name = true ->
  fetch_store_change name key s (storage_put s name key r).
Proof.
  intros H. pose proof (Stored name key s r) as HS.
  unfold opened_storage in HS. rewrite H in HS. exact HS.
Qed.

Lemma change_put_created (name key : string) (s : CacheStorage) (r : Response) :
  has_cache s name = false ->
  fetch_store_change name key s (storage_put (s ++ [(name, [])]) name key r).
Proof.
  intros H. pose proof (Stored name key s r) as HS.
  unfold opened_storage in HS. rewrite H in HS. exact HS.
Qed.

Lemma change_created (name key : string) (s : CacheStorage) :
  has_cache s name = false ->
  fetch_store_change name key s (s ++ [(name, [])]).
Proof.
  intros H. pose proof (Opened name key s) as HS.
  unfold opened_storage in HS. rewrite H in HS. exact HS.
Qed.

Ltac split_handler :=
  repeat match goal with
         | |- context [match network ?e ?n ?u with _ => _ end] =>
             destruct (network e n u); simpl
         | |- context [has_cache ?s ?n] =>
             destruct (has_cache s n) eqn:?; simpl
         | |- context [if ?b then _ else _] => destruct b; simpl
         | |- context [match storage_lookup ?s ?k with _ => _ end] =>
             destruct (storage_lookup s k); simpl
         end.

Ltac close_change :=
  first [ apply NoChange
        | apply change_put_existing; assumption
        | apply change_put_created; assumption
        | apply change_created; assumption ].

Lemma sw_respond_change (env : Env) (request : Request) (w : World) :
  fetch_store_change Sw.CACHE_NAME (href (url request)) (storage w)
    (storage (snd (Sw.respond env request w))).
Proof.
  unfold Sw.respond. unfold_promise. unfold_platform. simpl.
  split_handler; close_change.
Qed.

Lemma part000_respond_change (env : Env) (request : Request) (w : World) :
  fetch_store_change (Part000.CACHE_NAME env) (href (url request)) (storage w)
    (storage (snd (Part000.respond env request w))).
Proof.
  unfold Part000.respond, Part000.dev_network_first, Part000.fetch_and_cache.
  generalize (Part000.CACHE_NAME env). intros name.
  destruct (Part000.isDevelopment env);
    unfold_promise; unfold_platform; simpl;
    split_handler; close_change.
Qed.

Lemma storage_lookup_put_other_key
      (s : CacheStorage) (name key key' : string) (r : Response) :
  key' <> key ->
  storage_lookup (storage_put s name key r) key' = storage_lookup s key'.
Proof.
  intros Hne. induction s as [| [n c] s IH]; simpl; [ reflexivity | ].
  destruct (n =? name); simpl; rewrite ?IH; [ | reflexivity ].
  rewrite cache_lookup_update_other by exact Hne. reflexivity.
Qed.

Lemma change_frame (name key : string) (s s' : CacheStorage) :
  fetch_store_change name key s s' ->
  filter (fun nc => negb (fst nc =? name)) s'
  = filter (fun nc => negb (fst nc =? name)) s /\
  (forall key', key' <> key -> storage_lookup s' key' = storage_lookup s key').
Proof.
  assert (filter (fun nc => negb (fst nc =? name)) (opened_storage s name)
          = filter (fun nc => negb (fst nc =? name)) s) as Hfilter.
  { unfold opened_storage. destruct (has_cache s name);
      [ reflexivity | apply filter_others_new_cache ]. }
  assert (forall k, storage_lookup (opened_storage s name) k
                    = storage_lookup s k) as Hlook.
  { intros k. unfold opened_storage. destruct (has_cache s name);
      [ reflexivity | apply storage_lookup_new_cache ]. }
  intros [| | r]; split; auto.
  - rewrite storage_put_others. exact Hfilter.
  - intros key' Hne. rewrite storage_lookup_put_other_key by exact Hne.
    apply Hlook.
Qed.

Lemma fetch_listener_world env task request w :
  snd (fetch_listener env task request w)
  = if skips env request then w else snd (task request w).
Proof.
  unfold fetch_listener. destruct (skips env request); [ reflexivity | ].
  destruct (task request w); reflexivity.
Qed.

(** X16. Handling a fetch event changes the store in one place at most: the
    entry for the request's own URL in the current cache.  Caches of other
    names are exactly what they were, and what a lookup over all caches
    finds for any other URL is unchanged.  Both scripts, every input. *)
Theorem fetch_changes_own_entry_only (env : Env) (request : Request) (w : World) :
  (filter (fun nc => negb (fst nc =? Sw.CACHE_NAME))
          (storage (snd (Sw.on_fetch env request w)))
   = filter (fun nc => negb (fst nc =? Sw.CACHE_NAME)) (storage w) /\
   forall key, key <> href (url request) ->
     storage_lookup (storage (snd (Sw.on_fetch env request w))) key
     = storage_lookup (storage w) key) /\
  (filter (fun nc => negb (fst nc =? Part000.CACHE_NAME env))
          (storage (snd (Part000.on_fetch env request w)))
   = filter (fun nc => negb (fst nc =? Part000.CACHE_NAME env)) (storage w) /\
   forall key, key <> href (url request) ->
     storage_lookup (storage (snd (Part000.on_fetch env request w))) key
     = storage_lookup (storage w) key).
Proof.
  unfold Sw.on_fetch, Part000.on_fetch. rewrite !fetch_listener_world.
  destruct (skips env request); [ repeat split | ].
  split; eapply change_frame;
    [ apply sw_respond_change | apply part000_respond_change ].
Qed.

(** *** The fetch handler and the network *)

Ltac count_fetches :=
  first [ exists 0; split; [ lia | simpl; rewrite ?app_nil_r; reflexivity ]
        | exists 1; split; [ lia | simpl; reflexivity ]
        | exists 2; split;
          [ lia | simpl; rewrite <- ?app_assoc; reflexivity ] ].

Lemma sw_respond_fetches (env : Env) (request : Request) (w : World) :
  exists k, k <= 2 /\
    fetched (snd (Sw.respond env request w))
    = fetched w ++ times k (href (url request)).
Proof.
  unfold Sw.respond, times. unfold_promise. unfold_platform. simpl.
  split_handler; count_fetches.
Qed.

Lemma part000_respond_fetches (env : Env) (request : Request) (w : World) :
  exists k, k <= (if Part000.isDevelopment env then 2 else 1) /\
    fetched (snd (Part000.respond env request w))
    = fetched w ++ times k (href (url request)).
Proof.
  unfold Part000.respond, Part000.dev_network_first, Part000.fetch_and_cache.
  unfold times. generalize (Part000.CACHE_NAME env). intros name.
  destruct (Part000.isDevelopment env);
    unfold_promise; unfold_platform; simpl;
    split_handler; count_fetches.
Qed.

(** X17. The only URL a fetch handler requests from the network is the
    request's own, and it requests it at most twice: at most once in
    [part_000] in production mode, at most twice in development mode and in
    [sw.js].  Every input. *)
Theorem fetch_network_requests (env : Env) (request : Request) (w : World) :
  (exists k, k <= 2 /\
     fetched (snd (Sw.on_fetch env request w))
     = fetched w ++ times k (href (url request))) /\
  (exists k, k <= (if Part000.isDevelopment env then 2 else 1) /\
     fetched (snd (Part000.on_fetch env request w))
     = fetched w ++ times k (href (url request))).
Proof.
  unfold Sw.on_fetch, Part000.on_fetch. rewrite !fetch_listener_world.
  destruct (skips env request).
  - split; exists 0; (split; [ lia | simpl; rewrite app_nil_r; reflexivity ]).
  - split; [ apply sw_respond_fetches | apply part000_respond_fetches ].
Qed.

(** X18. In development mode a response of status 200 from the network is
    passed through as it is: it is the answer after one fetch, and the
    store is neither written nor even looked up. *)
Theorem dev_passes_200_through
        (env : Env) (request : Request) (w : World) (r : Response) :
  Part000.isDevelopment env = true ->
  skips env request = false ->
  network env (length (fetched w)) (href (url request)) = NetOk r ->
  status r = 200 ->
  Part000.on_fetch env request w =
  (RespondWith (Ok (Some r)),
   add_console (LogDevFetched (href (url request)))
     (add_fetched (href (url request)) w)).
Proof.
  intros Hdev Hgate Hnet Hstatus.
  unfold Part000.on_fetch, fetch_listener. rewrite Hgate.
  unfold Part000.respond, Part000.dev_network_first. rewrite Hdev.
  unfold_promise. unfold fetch. rewrite Hnet, Hstatus. reflexivity.
Qed.

Lemma dev_passes_200_through_witness :
  let env := healthy dev_location 2000 online in
  let request := get dev_location "/app.js" "script" in
  let w := world_with
             [(Part000.CACHE_NAME env,
               [("http://localhost:3000/app.js", page "stale")])] in
  storeops (snd (Part000.on_fetch env request w)) = [] /\
  fst (Part000.on_fetch env request w)
  = RespondWith (Ok (Some (page "http://localhost:3000/app.js"))).
Proof.
  intros env request w.
  rewrite (@dev_passes_200_through env request w
             (page "http://localhost:3000/app.js")
             eq_refl eq_refl eq_refl eq_refl).
  split; reflexivity.
Defined.

(** X19. In [sw.js], when the lookup of the request is rejected, the
    handler goes to the network once and answers with what it gets; that
    response is not stored, whatever its status and type, and a network
    failure then is the failure of the response. *)
Theorem sw_lookup_failure_goes_to_network
        (env : Env) (request : Request) (w : World) :
  skips env request = false ->
  match_raises env (href (url request)) = true ->
  fst (Sw.on_fetch env request w) =
    RespondWith
      (match network env (length (fetched w)) (href (url request)) with
       | NetOk r => Ok (Some r)
       | NetFail => Raise (NetworkError (length (fetched w)))
       end) /\
  storage (snd (Sw.on_fetch env request w)) = storage w /\
  fetched (snd (Sw.on_fetch env request w)) = fetched w ++ [href (url request)].
Proof.
  intros Hgate Hmatch.
  unfold Sw.on_fetch. rewrite fetch_listener_respond by exact Hgate.
  unfold Sw.respond. unfold_promise. unfold_platform. simpl.
  rewrite Hmatch. simpl.
  destruct (network env (length (fetched w)) (href (url request)));
    repeat split.
Qed.

Lemma sw_lookup_failure_goes_to_network_witness :
  let env := mkEnv prod_location 0 0 online (fun _ => true) no no2 false no
                   false in
  let request := get prod_location "/app.js" "script" in
  fst (Sw.on_fetch env request empty_world)
    = RespondWith (Ok (Some (page "https://yourgpt.app/app.js"))) /\
  storage (snd (Sw.on_fetch env request empty_world)) = [].
Proof.
  intros env request.
  destruct (@sw_lookup_failure_goes_to_network env request empty_world
              eq_refl eq_refl) as (Hans & Hstore & _).
  split; [ exact Hans | exact Hstore ].
Defined.

(** *** The two scripts side by side *)

(** X20. With development mode off and lookups that are not rejected,
    [part_000] behaves to the page and to the platform as [sw.js] does: the
    page sees the same answer, and the store, the network requests and the
    store calls are the same afterwards.  (They differ in what they log,
    and in that [part_000] rejects where [sw.js] resolves with nothing.) *)
Theorem production_scripts_agree (env : Env) (request : Request) (w : World) :
  Part000.isDevelopment env = false ->
  match_raises env (href (url request)) = false ->
  match_raises env (resolve env "/index.html") = false ->
  page_sees (fst (Part000.on_fetch env request w))
    = page_sees (fst (Sw.on_fetch env request w)) /\
  storage (snd (Part000.on_fetch env request w))
    = storage (snd (Sw.on_fetch env request w)) /\
  fetched (snd (Part000.on_fetch env request w))
    = fetched (snd (Sw.on_fetch env request w)) /\
  storeops (snd (Part000.on_fetch env request w))
    = storeops (snd (Sw.on_fetch env request w)).
Proof.
  intros Hprod Hmatch Hidx.
  unfold Part000.on_fetch, Sw.on_fetch, fetch_listener.
  destruct (skips env request); [ repeat split | ].
  unfold Part000.respond, Part000.dev_network_first, Part000.fetch_and_cache,
    Sw.respond.
  rewrite (part000_production_cache_name _ Hprod), Hprod.
  unfold_promise. unfold_platform. simpl.
  rewrite Hmatch. simpl.
  destruct (storage_lookup (storage w) (href (url request))); simpl;
    [ repeat split | ].
  destruct (network env (length (fetched w)) (href (url request))); simpl.
  - split_handler; repeat split.
  - destruct (destination request =? "document"); simpl;
      [ | repeat split ].
    rewrite Hidx. simpl.
    destruct (storage_lookup (storage w) (resolve env "/index.html"));
      repeat split.
Qed.

Lemma production_scripts_agree_witness :
  let env := healthy prod_location 0 offline in
  let request := get prod_location "/chat" "document" in
  page_sees (fst (Part000.on_fetch env request empty_world))
  = page_sees (fst (Sw.on_fetch env request empty_world)).
Proof.
  intros env request.
  destruct (@production_scripts_agree env request empty_world
              eq_refl eq_refl eq_refl) as [H _].
  exact H.
Defined.

(** *** Caching round trip *)

Lemma sw_hit (env : Env) (request : Request) (w : World) (r : Response) :
  skips env request = false ->
  match_raises env (href (url request)) = false ->
  storage_lookup (storage w) (href (url request)) = Some r ->
  fst (Sw.on_fetch env request w) = RespondWith (Ok (Some r)) /\
  fetched (snd (Sw.on_fetch env request w)) = fetched w.
Proof.
  intros Hgate Hmatch Hhit.
  unfold Sw.on_fetch. rewrite fetch_listener_respond by exact Hgate.
  unfold Sw.respond. unfold_promise. unfold_platform. simpl.
  rewrite Hmatch. simpl. rewrite Hhit. simpl. auto.
Qed.

Lemma part000_hit (env : Env) (request : Request) (w : World) (r : Response) :
  Part000.isDevelopment env = false ->
  skips env request = false ->
  match_raises env (href (url request)) = false ->
  storage_lookup (storage w) (href (url request)) = Some r ->
  fst (Part000.on_fetch env request w) = RespondWith (Ok (Some r)) /\
  fetched (snd (Part000.on_fetch env request w)) = fetched w.
Proof.
  intros Hprod Hgate Hmatch Hhit.
  unfold Part000.on_fetch. rewrite fetch_listener_respond by exact Hgate.
  unfold Part000.respond, Part000.dev_network_first. rewrite Hprod.
  unfold_promise. unfold_platform. simpl.
  rewrite Hmatch. simpl. rewrite Hhit. simpl. auto.
Qed.

(** X21. Caching round trip in production mode.  When a request misses the
    store, the network answers it with a 200/basic response and the store
    accepts the put, then the same request made again is answered with that
    response from the store, without another network request.  Both
    scripts. *)
Theorem second_request_served_from_store
        (env : Env) (request : Request) (w : World) (resp : Response)
        (on_fetch : Env -> Request -> World -> Handled * World) :
  on_fetch = Sw.on_fetch \/
  (on_fetch = Part000.on_fetch /\ Part000.isDevelopment env = false) ->
  skips env request = false ->
  match_raises env (href (url request)) = false ->
  open_raises env Sw.CACHE_NAME = false ->
  put_raises env Sw.CACHE_NAME (href (url request)) = false ->
  storage_lookup (storage w) (href (url request)) = None ->
  network env (length (fetched w)) (href (url request)) = NetOk resp ->
  status resp = 200 -> type resp = "basic" ->
  let w1 := snd (on_fetch env request w) in
  fst (on_fetch env request w1) = RespondWith (Ok (Some resp)) /\
  fetched (snd (on_fetch env request w1)) = fetched w ++ [href (url request)].
Proof.
  intros Hscript Hgate Hmatch Hopen Hput Hmiss Hnet Hstatus Htype w1.
  assert (cache_miss_claim on_fetch env request w) as Hclaim.
  { destruct Hscript as [-> | [-> Hprod]];
      [ apply sw_cache_miss | apply part000_cache_miss_production ];
      assumption. }
  destruct (Hclaim resp Hgate Hmatch Hmiss Hnet) as (_ & Hfetched & Hstored).
  fold w1 in Hfetched, Hstored.
  assert (storage_lookup (storage w1) (href (url request)) = Some resp)
    as Hhit by (apply Hstored; auto).
  rewrite <- Hfetched.
  destruct Hscript as [-> | [-> Hprod]];
    [ apply sw_hit | apply part000_hit ]; assumption.
Qed.

Lemma second_request_served_from_store_witness :
  let env := healthy prod_location 0 (up_until 1) in
  let request := get prod_location "/app.js" "script" in
  let w1 := snd (Part000.on_fetch env request empty_world) in
  fst (Part000.on_fetch env request w1)
    = RespondWith (Ok (Some (page "https://yourgpt.app/app.js"))) /\
  fetched (snd (Part000.on_fetch env request w1))
    = [] ++ ["https://yourgpt.app/app.js"].
Proof.
  intros env request.
  apply (@second_request_served_from_store env request empty_world
           (page "https://yourgpt.app/app.js") Part000.on_fetch);
    try reflexivity.
  right. split; reflexivity.
Defined.

(** *** Push, further *)

(** X22. Whatever the payload, the push handler leaves the store and the
    network alone and shows at most one notification, which carries the
    clock reading of the event.  Its title is "YourGPT" when the payload's
    title is missing or counts as false (null, false, zero, the empty
    string), and otherwise the payload's title converted to a string; its
    body is the payload's body converted likewise.  A title that counts as
    true can still convert to the empty string: the empty array does. *)
Theorem push_effects (env : Env) (data : option PushJson) (w : World) :
  storage (snd (on_push env data w)) = storage w /\
  fetched (snd (on_push env data w)) = fetched w /\
  storeops (snd (on_push env data w)) = storeops w /\
  (notifications (snd (on_push env data w)) = notifications w \/
   exists payload,
     data = Some (JsonParsed payload) /\
     notifications (snd (on_push env data w)) =
     notifications w ++
       [mkNotification
          (match property payload "title" with
           | Some t => if truthy t then toDOMString t else "YourGPT"
           | None => "YourGPT"
           end)
          (option_map toDOMString (property payload "body"))
          (event_now env)]) /\
  (notify_raises env = false ->
   notifications
     (snd (on_push env (Some (JsonParsed (JObject [("title", JArray [])]))) w))
   = notifications w ++ [mkNotification "" None (event_now env)]).
Proof.
  assert (notify_raises env = false ->
          notifications
            (snd (on_push env
                    (Some (JsonParsed (JObject [("title", JArray [])]))) w))
          = notifications w ++ [mkNotification "" None (event_now env)])
    as Hempty.
  { intros H. unfold on_push, showNotification, catch. simpl. rewrite H.
    reflexivity. }
  repeat match goal with
         | |- _ /\ (notify_raises env = false -> _) =>
             split; [ | exact Hempty ]
         | |- _ /\ _ => split
         end;
    clear Hempty;
    (destruct data as [[| payload] |];
     [ | destruct payload | ];
     unfold on_push, showNotification, catch, log, raise, ret;
     destruct (notify_raises env); simpl;
     first [ reflexivity
           | left; reflexivity
           | right; eexists; split; reflexivity ]).
Qed.

(** *** Install, activate, then offline *)

Lemma storage_lookup_only_named (s : CacheStorage) (name key : string)
      (r : Response) :
  lookup_in s name key = Some r ->
  storage_lookup (filter (fun nc => fst nc =? name) s) key = Some r.
Proof.
  induction s as [| [n c] s IH]; simpl; [ discriminate | ].
  destruct (n =? name); simpl.
  - intros ->. reflexivity.
  - exact IH.
Qed.

(** X23. Offline readiness across the lifecycle.  If during the install
    the fetch of '/index.html' brought an ok response that the cache
    accepted, and the activation ran under the same generation name as the
    install (in [part_000] in development mode: the worker was not
    restarted in between), listed the names and had no deletion rejected,
    then a worker of the same origin, restarted since or not and in either
    mode, answers with the network down a navigation to a page that is not
    in the store with that '/index.html' response.  Both scripts. *)
Theorem offline_after_install
        (at_install at_activate at_fetch : Env)
        (w : World) (request : Request) (shell : Response)
        (on_fetch : Env -> Request -> World -> Handled * World)
        (name : string) :
  (on_fetch = Sw.on_fetch /\ name = Sw.CACHE_NAME) \/
  (on_fetch = Part000.on_fetch /\
   name = Part000.CACHE_NAME at_install /\
   Part000.CACHE_NAME at_activate = Part000.CACHE_NAME at_install) ->
  loc_origin (location at_fetch) = loc_origin (location at_install) ->
  let installed := snd (on_install at_install name w) in
  let active := snd (on_activate at_activate name installed) in
  open_raises at_install name = false ->
  seed_response at_install name "/index.html" (length (fetched w) + 1)
    = Some shell ->
  keys_raises at_activate = false ->
  (forall n, delete_raises at_activate n = false) ->
  skips at_fetch request = false ->
  destination request = "document" ->
  (forall n, network at_fetch n (href (url request)) = NetFail) ->
  match_raises at_fetch (href (url request)) = false ->
  match_raises at_fetch (resolve at_fetch "/index.html") = false ->
  storage_lookup (storage active) (href (url request)) = None ->
  exists r,
    fst (on_fetch at_fetch request active) = RespondWith r /\
    page_receives r = Some shell.
Proof.
  intros Hscript Horigin installed active Hopen Hseed Hkeys Hdel Hgate Hdoc
         Hnet Hmatch Hidx Hmiss.
  assert (resolve at_fetch "/index.html" = resolve at_install "/index.html")
    as Hkey by (unfold resolve; rewrite Horigin; reflexivity).
  assert (storage_lookup (storage active) (resolve at_fetch "/index.html")
          = Some shell) as Hshell.
  { rewrite Hkey. subst active.
    rewrite on_activate_storage by exact Hkeys.
    rewrite (filter_ext _ (fun nc => fst nc =? name))
      by (intros nc; rewrite Hdel; apply orb_false_r).
    apply storage_lookup_only_named. subst installed.
    rewrite (@on_install_entry at_install name w 1 "/index.html" Hopen eq_refl).
    rewrite Hseed. reflexivity. }
  assert (exists r,
    fst (on_fetch at_fetch request active) = RespondWith r /\
    page_receives r =
      if (destination request =? "document") &&
         negb (match_raises at_fetch (resolve at_fetch "/index.html"))
      then storage_lookup (storage active) (resolve at_fetch "/index.html")
      else None) as (r & Hr & Hpage).
  { destruct Hscript as [[-> _] | [-> _]];
      [ apply sw_offline | apply part000_offline ]; assumption. }
  exists r. split; [ exact Hr | ].
  apply String.eqb_eq in Hdoc. rewrite Hdoc, Hidx, Hshell in Hpage.
  exact Hpage.
Qed.

(** A development worker installed and activated at clock reading 1000
    while the server was up, restarted at 2000 with the server down. *)
Lemma offline_after_install_witness :
  let started := healthy dev_location 1000 online in
  let restarted := healthy dev_location 2000 offline in
  let name := Part000.CACHE_NAME started in
  let active :=
    snd (on_activate started name (snd (on_install started name empty_world))) in
  exists r,
    fst (Part000.on_fetch restarted (get dev_location "/chat" "document") active)
      = RespondWith r /\
    page_receives r = Some (page "http://localhost:3000/index.html").
Proof.
  intros started restarted name active.
  apply (@offline_after_install started started restarted empty_world
           (get dev_location "/chat" "document")
           (page "http://localhost:3000/index.html")
           Part000.on_fetch name);
    try reflexivity.
  right. repeat split; reflexivity.
Defined.

(** *** Where answers come from *)

Ltac split_with_facts :=
  repeat match goal with
         | |- context [match network ?e ?n ?u with _ => _ end] =>
             destruct (network e n u) eqn:?; simpl
         | |- context [match storage_lookup ?s ?k with _ => _ end] =>
             destruct (storage_lookup s k) eqn:?; simpl
         | |- context [destination ?r =? "document"] =>
             destruct (String.eqb_spec (destination r) "document"); simpl
         | |- context [if ?b then _ else _] => destruct b; simpl
         end.

Ltac name_source :=
  let H := fresh "H" in
  intros H; try discriminate H; injection H as <-; eauto 6.

Lemma sw_answer_source (env : Env) (request : Request) (w : World)
      (r : Response) :
  fst (Sw.respond env request w) = Ok (Some r) ->
  (exists n, network env n (href (url request)) = NetOk r) \/
  storage_lookup (storage w) (href (url request)) = Some r \/
  (destination request = "document" /\
   storage_lookup (storage w) (resolve env "/index.html") = Some r).
Proof.
  unfold Sw.respond. unfold_promise. unfold_platform. simpl.
  split_with_facts; name_source.
Qed.

Lemma part000_answer_source (env : Env) (request : Request) (w : World)
      (r : Response) :
  fst (Part000.respond env request w) = Ok (Some r) ->
  (exists n, network env n (href (url request)) = NetOk r) \/
  storage_lookup (storage w) (href (url request)) = Some r \/
  (destination request = "document" /\
   storage_lookup (storage w) (resolve env "/index.html") = Some r).
Proof.
  unfold Part000.respond, Part000.dev_network_first, Part000.fetch_and_cache.
  generalize (Part000.CACHE_NAME env). intros name.
  destruct (Part000.isDevelopment env);
    unfold_promise; unfold_platform; simpl;
    split_with_facts; name_source.
Qed.

(** X24. A fetch handler never makes a response up.  Whenever it answers
    with a response, that response is one the network gave for the
    request's URL, or the entry the store held for that URL, or, for a
    document request, the entry the store held for '/index.html'.  Both
    scripts, every input. *)
Theorem answer_has_a_source
        (env : Env) (request : Request) (w : World) (r : Response)
        (on_fetch : Env -> Request -> World -> Handled * World) :
  on_fetch = Sw.on_fetch \/ on_fetch = Part000.on_fetch ->
  fst (on_fetch env request w) = RespondWith (Ok (Some r)) ->
  (exists n, network env n (href (url request)) = NetOk r) \/
  storage_lookup (storage w) (href (url request)) = Some r \/
  (destination request = "document" /\
   storage_lookup (storage w) (resolve env "/index.html") = Some r).
Proof.
  intros Hscript Hans.
  assert (skips env request = false) as Hgate.
  { destruct (skips env request) eqn:Hs; [ | reflexivity ].
    destruct Hscript as [-> | ->];
      unfold Sw.on_fetch, Part000.on_fetch in Hans;
      rewrite fetch_listener_skip in Hans by exact Hs; discriminate Hans. }
  destruct Hscript as [-> | ->];
    unfold Sw.on_fetch, Part000.on_fetch in Hans;
    rewrite fetch_listener_respond in Hans by exact Hgate;
    injection Hans as Hans;
    [ apply sw_answer_source | apply part000_answer_source ]; exact Hans.
Qed.

Lemma answer_has_a_source_witness :
  let env := healthy prod_location 0 offline in
  let request := get prod_location "/chat" "document" in
  let w := world_with
             [(Sw.CACHE_NAME, [("https://yourgpt.app/index.html", page "shell")])] in
  (exists n, network env n (href (url request)) = NetOk (page "shell")) \/
  storage_lookup (storage w) (href (url request)) = Some (page "shell") \/
  (destination request = "document" /\
   storage_lookup (storage w) (resolve env "/index.html") = Some (page "shell")).
Proof.
  intros env request w.
  apply (@answer_has_a_source env request w (page "shell") Sw.on_fetch);
    [ left; reflexivity | reflexivity ].
Defined.

(** *** Development mode, further *)

(** X25. In development mode a request is sent to the network a second
    time whenever the first attempt did not bring a response of status 200
    (it failed, or brought a 404, say) and the lookup in between was not
    rejected; when the second attempt brings a response, that one is the
    answer, whatever the store holds. *)
Theorem dev_second_attempt
        (env : Env) (request : Request) (w : World) (r2 : Response) :
  Part000.isDevelopment env = true ->
  skips env request = false ->
  match_raises env (href (url request)) = false ->
  (forall r1, network env (length (fetched w)) (href (url request)) = NetOk r1 ->
              status r1 <> 200) ->
  network env (S (length (fetched w))) (href (url request)) = NetOk r2 ->
  fst (Part000.on_fetch env request w) = RespondWith (Ok (Some r2)) /\
  fetched (snd (Part000.on_fetch env request w))
  = fetched w ++ [href (url request); href (url request)].
Proof.
  intros Hdev Hgate Hmatch Hfirst Hsecond.
  unfold Part000.on_fetch. rewrite fetch_listener_respond by exact Hgate.
  unfold Part000.respond, Part000.dev_network_first, Part000.fetch_and_cache.
  generalize (Part000.CACHE_NAME env). intros name.
  rewrite Hdev. unfold_promise. unfold_platform. simpl.
  destruct (network env (length (fetched w)) (href (url request)))
    as [r1 |] eqn:Hnet; simpl.
  - specialize (Hfirst r1 eq_refl). apply Nat.eqb_neq in Hfirst.
    rewrite Hfirst. simpl. rewrite Hmatch. simpl.
    destruct (storage_lookup (storage w) (href (url request))); simpl;
      rewrite ?length_app; simpl; rewrite ?Nat.add_1_r;
      rewrite Hsecond; simpl; split_handler;
      rewrite <- ?app_assoc; split; reflexivity.
  - rewrite Hmatch. simpl.
    destruct (storage_lookup (storage w) (href (url request))); simpl;
      rewrite ?length_app; simpl; rewrite ?Nat.add_1_r;
      rewrite Hsecond; simpl; split_handler;
      rewrite <- ?app_assoc; split; reflexivity.
Qed.

(** A 404 on the first attempt, a page on the second. *)
Lemma dev_second_attempt_witness :
  let env := healthy dev_location 2000
               (fun n u => if (n =? 0)%nat
                           then NetOk (mkResponse 404 "basic" "not found")
                           else NetOk (page u)) in
  let request := get dev_location "/app.js" "script" in
  fst (Part000.on_fetch env request empty_world)
    = RespondWith (Ok (Some (page "http://localhost:3000/app.js"))) /\
  fetched (snd (Part000.on_fetch env request empty_world))
    = [] ++ ["http://localhost:3000/app.js"; "http://localhost:3000/app.js"].
Proof.
  intros env request.
  apply (@dev_second_attempt env request empty_world
           (page "http://localhost:3000/app.js"));
    try reflexivity.
  intros r1 H. injection H as <-. discriminate.
Defined.

(** *** The allow list *)

(** X26. The allow list is matched by substring.  A GET request of a
    scheme other than the four extension schemes is intercepted as soon as
    its hostname contains one of the four allow-listed names anywhere,
    whatever surrounds the name and whatever its origin. *)
Theorem allow_list_by_substring
        (env : Env) (request : Request) (allowed a b : string) :
  In allowed ["cdn.tailwindcss.com"; "cdn.jsdelivr.net";
              "fonts.googleapis.com"; "supabase.co"] ->
  hostname (url request) = (a ++ allowed ++ b)%string ->
  method request = "GET" ->
  ~ In (protocol (url request))
       ["chrome-extension:"; "chrome:"; "moz-extension:";
        "ms-browser-extension:"] ->
  skips env request = false.
Proof.
  intros Hallowed Hhost Hget Hscheme.
  assert (JS.includes (hostname (url request)) allowed = true) as Hinc
    by (apply includes_spec; exists a, b; exact Hhost).
  unfold skips. rewrite Hget. simpl.
  assert ((protocol (url request) =? "chrome-extension:") = false /\
          (protocol (url request) =? "chrome:") = false /\
          (protocol (url request) =? "moz-extension:") = false /\
          (protocol (url request) =? "ms-browser-extension:") = false)
    as (-> & -> & -> & ->).
  { repeat split; apply String.eqb_neq; intros Heq; apply Hscheme;
      rewrite Heq; simpl; auto. }
  simpl.
  destruct Hallowed as [<- | [<- | [<- | [<- | []]]]]; rewrite Hinc; simpl;
    rewrite ?andb_false_r; reflexivity.
Qed.

Lemma allow_list_by_substring_witness :
  skips (healthy prod_location 0 offline)
        (mkRequest "GET"
           (mkURL "https://supabase.co.example.org/x" "https:"
                  "https://supabase.co.example.org" "supabase.co.example.org")
           "script")
  = false.
Proof.
  apply (@allow_list_by_substring _ _ "supabase.co" "" ".example.org");
    [ simpl; auto | reflexivity | reflexivity | ].
  simpl. intuition discriminate.
Defined.

(** *** Install, activate, then a seed is asked for *)

(** X27. Precaching works end to end in production mode.  If during the
    install the fetch of a seed brought an ok response that the cache
    accepted, and the activation listed the names and no deletion was
    rejected, then a later request for that seed's URL is answered with that
    response from the store, without a network request.  Both scripts. *)
Theorem seed_served_after_install
        (env : Env) (w : World) (request : Request) (i : nat) (u : string)
        (r : Response)
        (on_fetch : Env -> Request -> World -> Handled * World) :
  on_fetch = Sw.on_fetch \/
  (on_fetch = Part000.on_fetch /\ Part000.isDevelopment env = false) ->
  let installed := snd (on_install env Sw.CACHE_NAME w) in
  let active := snd (on_activate env Sw.CACHE_NAME installed) in
  open_raises env Sw.CACHE_NAME = false ->
  nth_error urlsToCache i = Some u ->
  seed_response env Sw.CACHE_NAME u (length (fetched w) + i) = Some r ->
  keys_raises env = false ->
  (forall n, delete_raises env n = false) ->
  skips env request = false ->
  href (url request) = resolve env u ->
  match_raises env (href (url request)) = false ->
  fst (on_fetch env request active) = RespondWith (Ok (Some r)) /\
  fetched (snd (on_fetch env request active)) = fetched active.
Proof.
  intros Hscript installed active Hopen Hnth Hseed Hkeys Hdel Hgate Hurl
         Hmatch.
  assert (storage_lookup (storage active) (href (url request)) = Some r)
    as Hhit.
  { subst active. rewrite on_activate_storage by exact Hkeys.
    rewrite (filter_ext _ (fun nc => fst nc =? Sw.CACHE_NAME))
      by (intros nc; rewrite Hdel; apply orb_false_r).
    apply storage_lookup_only_named. subst installed. rewrite Hurl.
    rewrite (@on_install_entry env Sw.CACHE_NAME w i u Hopen Hnth).
    rewrite Hseed. reflexivity. }
  destruct Hscript as [-> | [-> Hprod]];
    [ apply sw_hit | apply part000_hit ]; assumption.
Qed.

Lemma seed_served_after_install_witness :
  let env := healthy prod_location 0 (up_until 5) in
  let active :=
    snd (on_activate env Sw.CACHE_NAME
           (snd (on_install env Sw.CACHE_NAME empty_world))) in
  fst (Sw.on_fetch env (get prod_location "/manifest.json" "manifest") active)
    = RespondWith (Ok (Some (page "https://yourgpt.app/manifest.json"))) /\
  fetched (snd (Sw.on_fetch env (get prod_location "/manifest.json" "manifest")
                  active))
    = fetched active.
Proof.
  intros env active.
  apply (@seed_served_after_install env empty_world
           (get prod_location "/manifest.json" "manifest") 2 "/manifest.json"
           (page "https://yourgpt.app/manifest.json") Sw.on_fetch);
    try reflexivity.
  left. reflexivity.
Defined.

(** In development mode the root document can be written by the fetch path:
    its URL does not contain 'index.html'.  First attempt failing, second
    attempt answering. *)
Lemma dev_root_document_written :
  let env := healthy dev_location 2000
               (fun n u => if (n =? 0)%nat then NetFail else NetOk (page u)) in
  let request := get dev_location "/" "document" in
  storage (snd (Part000.on_fetch env request empty_world))
  = [(Part000.CACHE_NAME env,
      [("http://localhost:3000/", page "http://localhost:3000/")])].
Proof. reflexivity. Qed.
